(** * The secret mirroring controller: a shallow embedding

    This development embeds [pkg/controller/secret-mirror.go] and the
    configuration agent of [pkg/controller/config] and proves the
    properties the specification states about them.

    Conventions of the embedding:
    - a Go [error] is [option error], [None] being [nil];
    - a Go map is [option (gmap string V)], [None] being the nil map, and
      a byte slice is [option (list byte)], [None] being the nil slice:
      [reflect.DeepEqual] tells a nil map or slice from an empty one;
    - the calls made on the API client and the log lines are threaded
      through a state monad [M] over a [World]. *)

From Stdlib Require Import ZArith Strings.Byte Ascii Lia.
From Stdlib Require String DecimalString.
From stdpp Require Import base option gmap strings list.

(** ** Go values *)

Module Go.

Abbreviation bytes := (option (list Byte.byte)).

#[global] Instance byte_eq_dec : EqDecision Byte.byte := Byte.byte_eq_dec.

(** [len] of a map: a nil map has length 0. *)
Definition len {V} (m : option (gmap string V)) : nat :=
  match m with
  | None => 0
  | Some m => size m
  end.

(** [reflect.DeepEqual] on [[]byte]: both nil, or both non-nil with the
    same elements. *)
Definition DeepEqual_bytes (a b : bytes) : bool :=
  match a, b with
  | None, None => true
  | Some x, Some y => bool_decide (x = y)
  | _, _ => false
  end.

(** [reflect.DeepEqual] on [map[string][]byte]: both nil, or both non-nil
    with the same length and every key of the first bound in the second
    to a deeply equal value. *)
Definition DeepEqual (a b : option (gmap string bytes)) : bool :=
  match a, b with
  | None, None => true
  | Some m1, Some m2 =>
      bool_decide (size m1 = size m2)
      && forallb (λ kv,
           match m2 !! kv.1 with
           | Some w => DeepEqual_bytes kv.2 w
           | None => false
           end) (map_to_list m1)
  | _, _ => false
  end.

(** [strings.Split(s, sep)] for a one-character separator. *)
Fixpoint Split (sep : ascii) (s : string) : list string :=
  match s with
  | EmptyString => [EmptyString]
  | String c rest =>
      if Ascii.eqb c sep then EmptyString :: Split sep rest
      else match Split sep rest with
           | [] => [String c EmptyString]
           | p :: ps => String c p :: ps
           end
  end.

(** [strings.Join]. *)
Fixpoint Join (sep : string) (l : list string) : string :=
  match l with
  | [] => EmptyString
  | [x] => x
  | x :: rest => x +:+ sep +:+ Join sep rest
  end.

End Go.

(** ** Errors of the API machinery *)

Inductive StatusReason :=
| StatusReasonUnknown
| StatusReasonNotFound
| StatusReasonAlreadyExists
| StatusReasonConflict
| StatusReasonForbidden.

(** An error value: a status error of the API ([errors.StatusError]) or a
    plain one ([fmt.Errorf], [errors.New]). *)
Inductive error :=
| StatusError (reason : StatusReason) (message : string)
| PlainError (message : string).

Definition Error (e : error) : string :=
  match e with
  | StatusError _ m => m
  | PlainError m => m
  end.

(** [errors.IsNotFound]: false on nil and on anything but a status error
    whose reason is NotFound. *)
Definition IsNotFound (err : option error) : bool :=
  match err with
  | Some (StatusError StatusReasonNotFound _) => true
  | _ => false
  end.

(** [%v] of an error and of a slice of errors, as [fmt] prints them. *)
Definition fmt_error (e : option error) : string :=
  match e with
  | None => "<nil>"
  | Some e => Error e
  end.

Definition fmt_errors (l : list (option error)) : string :=
  "[" +:+ Go.Join " " (map fmt_error l) +:+ "]".

(** [%q] of a string is the quoting of the standard library
    ([strconv.Quote]), whose escaping rests on the tables of printable
    runes of that library: it is a parameter of the embedding. *)
Class Quote := fmt_q : string → string.

(** ** Secrets *)

(** [metav1.Time]: an instant counted in nanoseconds from the zero instant
    of [time.Time]. *)
Definition Time := Z.

(** [IsZero] on a pointer to [metav1.Time]: a nil pointer is zero. *)
Definition IsZero (t : option Time) : bool :=
  match t with
  | None => true
  | Some t => (t =? 0)%Z
  end.

Record TypeMeta := {
  Kind : string;
  APIVersion : string }.

Record ObjectMeta := {
  Name : string;
  GenerateName : string;
  Namespace : string;
  UID : string;
  ResourceVersion : string;
  CreationTimestamp : Time;
  DeletionTimestamp : option Time;
  Labels : option (gmap string string);
  Annotations : option (gmap string string);
  Finalizers : list string }.

Record Secret := {
  secretTypeMeta : TypeMeta;
  secretObjectMeta : ObjectMeta;
  Data : option (gmap string Go.bytes);
  StringData : option (gmap string string);
  Type_ : string }.

(** The zero values of the structs. *)
Definition zeroTypeMeta : TypeMeta := {| Kind := ""; APIVersion := "" |}.

Definition zeroObjectMeta : ObjectMeta :=
  {| Name := ""; GenerateName := ""; Namespace := ""; UID := "";
     ResourceVersion := ""; CreationTimestamp := 0%Z;
     DeletionTimestamp := None; Labels := None; Annotations := None;
     Finalizers := [] |}.

(** [DeepCopy] rebuilds the object field by field. *)
Definition DeepCopy_ObjectMeta (m : ObjectMeta) : ObjectMeta :=
  {| Name := m.(Name); GenerateName := m.(GenerateName);
     Namespace := m.(Namespace); UID := m.(UID);
     ResourceVersion := m.(ResourceVersion);
     CreationTimestamp := m.(CreationTimestamp);
     DeletionTimestamp := m.(DeletionTimestamp);
     Labels := m.(Labels); Annotations := m.(Annotations);
     Finalizers := m.(Finalizers) |}.

Definition DeepCopy (s : Secret) : Secret :=
  {| secretTypeMeta := s.(secretTypeMeta);
     secretObjectMeta := DeepCopy_ObjectMeta s.(secretObjectMeta);
     Data := s.(Data);
     StringData := s.(StringData);
     Type_ := s.(Type_) |}.

(** The assignment [destination.Data = d]. *)
Definition set_Data (d : option (gmap string Go.bytes)) (s : Secret) : Secret :=
  {| secretTypeMeta := s.(secretTypeMeta);
     secretObjectMeta := s.(secretObjectMeta);
     Data := d;
     StringData := s.(StringData);
     Type_ := s.(Type_) |}.

(** ** Configuration *)

(** Modelled from the spec: the declarations of [SecretLocation],
    [MirrorConfig] and [Configuration] are not among the sources; the
    fields are those the controller and the tests use (a Location with a
    scope and a name, a rule with From and To, an ordered sequence of
    rules). *)
Record SecretLocation := {
  locNamespace : string;
  locName : string }.

Record MirrorConfig := {
  From_ : SecretLocation;
  To : SecretLocation }.

Record Configuration := {
  Secrets : list MirrorConfig }.

(** ** The work queue *)

(** Modelled from the spec: the rate-limited work queue is the client
    library's and not among the sources; this is the contract of the
    specification's section 4.1 ([Add], [Get], [Done], [Forget],
    [AddRateLimited], [NumRequeues], [ShutDown]). *)
Module workqueue.

Record Queue := {
  pending : list string;          (* ready to dequeue, oldest first *)
  processing : gset string;       (* checked out by a worker *)
  dirty : gset string;            (* received while processing *)
  requeueCount : gmap string nat; (* kept until forgotten *)
  delayed : list (Z * string);    (* timers: delay in ns, key *)
  shuttingDown : bool }.

Definition New : Queue :=
  {| pending := []; processing := ∅; dirty := ∅; requeueCount := ∅;
     delayed := []; shuttingDown := false |}.

Definition Add (key : string) (q : Queue) : Queue :=
  if decide (key ∈ q.(processing)) then
    {| pending := q.(pending); processing := q.(processing);
       dirty := {[key]} ∪ q.(dirty); requeueCount := q.(requeueCount);
       delayed := q.(delayed); shuttingDown := q.(shuttingDown) |}
  else if decide (key ∈ q.(pending)) then q
  else
    {| pending := q.(pending) ++ [key]; processing := q.(processing);
       dirty := q.(dirty); requeueCount := q.(requeueCount);
       delayed := q.(delayed); shuttingDown := q.(shuttingDown) |}.

(** The timers elapse: every scheduled [Add] is performed, in the order
    of scheduling. *)
Definition elapse (q : Queue) : Queue :=
  fold_left (λ q dk, Add dk.2 q) q.(delayed)
    {| pending := q.(pending); processing := q.(processing);
       dirty := q.(dirty); requeueCount := q.(requeueCount);
       delayed := []; shuttingDown := q.(shuttingDown) |}.

Inductive GetResult :=
| Got (key : string) (q : Queue) (* an item, shutdown = false *)
| Quit                           (* shutdown = true *)
| Blocked.                       (* nothing pending, nothing scheduled *)

(** [Get] waits until an item is available or the queue is shut down;
    the wait lets the scheduled adds happen. *)
Definition Get (q : Queue) : GetResult :=
  let q := match q.(pending) with [] => elapse q | _ => q end in
  match q.(pending) with
  | key :: rest =>
      Got key
        {| pending := rest; processing := {[key]} ∪ q.(processing);
           dirty := q.(dirty); requeueCount := q.(requeueCount);
           delayed := q.(delayed); shuttingDown := q.(shuttingDown) |}
  | [] => if q.(shuttingDown) then Quit else Blocked
  end.

Definition Done (key : string) (q : Queue) : Queue :=
  if decide (key ∈ q.(dirty)) then
    {| pending := q.(pending) ++ [key];
       processing := q.(processing) ∖ {[key]};
       dirty := q.(dirty) ∖ {[key]}; requeueCount := q.(requeueCount);
       delayed := q.(delayed); shuttingDown := q.(shuttingDown) |}
  else
    {| pending := q.(pending); processing := q.(processing) ∖ {[key]};
       dirty := q.(dirty); requeueCount := q.(requeueCount);
       delayed := q.(delayed); shuttingDown := q.(shuttingDown) |}.

Definition NumRequeues (key : string) (q : Queue) : nat :=
  default 0 (q.(requeueCount) !! key).

Definition Forget (key : string) (q : Queue) : Queue :=
  {| pending := q.(pending); processing := q.(processing);
     dirty := q.(dirty); requeueCount := delete key q.(requeueCount);
     delayed := q.(delayed); shuttingDown := q.(shuttingDown) |}.

(** Base delay 5ms, cap 1000s, in nanoseconds. *)
Definition baseDelay : Z := 5000000.
Definition maxDelay : Z := 1000000000000.

(** The delay of the [n]-th requeue, [n >= 1]. *)
Definition backoff (n : nat) : Z :=
  Z.min (baseDelay * 2 ^ (Z.of_nat n - 1)) maxDelay.

Definition AddRateLimited (key : string) (q : Queue) : Queue :=
  let n := S (NumRequeues key q) in
  {| pending := q.(pending); processing := q.(processing);
     dirty := q.(dirty); requeueCount := <[key := n]> q.(requeueCount);
     delayed := q.(delayed) ++ [(backoff n, key)];
     shuttingDown := q.(shuttingDown) |}.

Definition ShutDown (q : Queue) : Queue :=
  {| pending := q.(pending); processing := q.(processing);
     dirty := q.(dirty); requeueCount := q.(requeueCount);
     delayed := q.(delayed); shuttingDown := true |}.

End workqueue.

(** ** The collaborators of the controller *)

(** A write issued on the API client: the namespace of the call and the
    object submitted. *)
Inductive Action :=
| CreateAction (namespace : string) (obj : Secret)
| UpdateAction (namespace : string) (obj : Secret).

(** The API client, seen from the controller: the error a call returns,
    given the calls issued before it. *)
Record Clientset := {
  respond : list Action → Action → option error }.

(** The lister of the informer cache: [Secrets(namespace).Get(name)]. *)
Inductive GetResult :=
| GetOk (secret : Secret)
| GetErr (err : error).

Definition SecretLister := string → string → GetResult.

(** Log lines: level, fields of the entry, message. *)
Inductive Level := DebugLevel | InfoLevel | ErrorLevel | FatalLevel.

Record LogEntry := {
  logLevel : Level;
  logFields : list (string * string);
  logMessage : string }.

Definition Logger := list (string * string).

Definition WithField (k v : string) (l : Logger) : Logger := l ++ [(k, v)].
Definition WithFields (kvs : list (string * string)) (l : Logger) : Logger :=
  l ++ kvs.
Definition WithError (e : error) (l : Logger) : Logger :=
  l ++ [("error", Error e)].

(** ** The state the controller acts on *)

Record World := {
  queue : workqueue.Queue;
  actions : list Action;     (* the writes issued so far, oldest first *)
  logs : list LogEntry }.

Definition M (A : Type) : Type := World → A * World.

#[global] Instance M_ret : MRet M := λ A a w, (a, w).
#[global] Instance M_bind : MBind M :=
  λ A B f m w, let (a, w') := m w in f a w'.

Definition log (lv : Level) (l : Logger) (msg : string) : M unit :=
  λ w, (tt, {| queue := w.(queue); actions := w.(actions);
               logs := w.(logs) ++ [{| logLevel := lv; logFields := l;
                                       logMessage := msg |}] |}).

(** [utilruntime.HandleError]: the error goes to the log. *)
Definition HandleError (e : error) : M unit :=
  log ErrorLevel [("handler", "utilruntime")] (Error e).

(** A call on the client: recorded, and answered by the client. *)
Definition call (cl : Clientset) (a : Action) : M (option error) :=
  λ w, (cl.(respond) w.(actions) a,
        {| queue := w.(queue); actions := w.(actions) ++ [a];
           logs := w.(logs) |}).

Definition onQueue (f : workqueue.Queue → workqueue.Queue) : M unit :=
  λ w, (tt, {| queue := f w.(queue); actions := w.(actions);
               logs := w.(logs) |}).

Definition getQueue : M workqueue.Queue := λ w, (w.(queue), w).

(** ** The controller *)

Definition maxRetries : nat := 15.

Definition secretMirrorname : string := "secret-mirroring-manager".

Record SecretMirror := {
  config : Configuration;
  client : Clientset;
  lister : SecretLister;
  logger : Logger }.

Definition NewSecretMirror (informer : SecretLister) (client : Clientset)
    (config : Configuration) : SecretMirror :=
  let logger := WithField "controller" secretMirrorname [] in
  {| config := config; client := client; lister := informer;
     logger := logger |}.

(** [cache.SplitMetaNamespaceKey]. *)
Definition SplitMetaNamespaceKey `{Quote} (key : string)
    : string * string * option error :=
  match Go.Split "/"%char key with
  | [name] => ("", name, None)
  | [namespace; name] => (namespace, name, None)
  | _ => ("", "",
          Some (PlainError ("unexpected key format: " +:+ fmt_q key)))
  end.

Definition mirrorSecret (c : SecretMirror) (source : Secret)
    (to : SecretLocation) (logger : Logger) : M (option error) :=
  let logger := WithFields [("target-namespace", to.(locNamespace));
                            ("target-secret", to.(locName))] logger in
  log InfoLevel logger "processing mirror request";;
  if Nat.eqb (Go.len source.(Data)) 0 then
    log InfoLevel logger
      "not updating target secret as source has no data";;
    mret None
  else
    match c.(lister) to.(locNamespace) to.(locName) with
    | GetOk secret =>
        if Go.DeepEqual secret.(Data) source.(Data) then
          log InfoLevel logger
            "not updating target secret as it already matches the source";;
          mret None
        else
          log InfoLevel logger "updating target secret";;
          let destination := DeepCopy secret in
          let destination := set_Data source.(Data) destination in
          updateErr ← call c.(client)
                        (UpdateAction to.(locNamespace) destination);
          mret updateErr
    | GetErr getErr =>
        if IsNotFound (Some getErr) then
          log InfoLevel logger "creating target secret";;
          let destination :=
            {| secretTypeMeta := zeroTypeMeta;
               secretObjectMeta :=
                 {| Name := to.(locName); GenerateName := "";
                    Namespace := to.(locNamespace); UID := "";
                    ResourceVersion := ""; CreationTimestamp := 0%Z;
                    DeletionTimestamp := None; Labels := None;
                    Annotations := None; Finalizers := [] |};
               Data := source.(Data);
               StringData := None;
               Type_ := "" |} in
          createErr ← call c.(client)
                        (CreateAction to.(locNamespace) destination);
          mret createErr
        else mret (Some getErr)
    end.

(** The loop of [reconcile] over the rules of the configuration: the
    result of [mirrorSecret] is appended for every rule whose source is
    [(namespace, name)]. *)
Fixpoint mirrorAll (c : SecretMirror) (namespace name : string)
    (source : Secret) (logger : Logger) (rules : list MirrorConfig)
    (mirrorErrors : list (option error)) : M (list (option error)) :=
  match rules with
  | [] => mret mirrorErrors
  | mirrorConfig :: rest =>
      if String.eqb mirrorConfig.(From_).(locNamespace) namespace
         && String.eqb mirrorConfig.(From_).(locName) name
      then
        err ← mirrorSecret c source mirrorConfig.(To) logger;
        mirrorAll c namespace name source logger rest (mirrorErrors ++ [err])
      else mirrorAll c namespace name source logger rest mirrorErrors
  end.

Definition reconcile `{Quote} (c : SecretMirror) (key : string)
    : M (option error) :=
  let logger := WithField "key" key c.(logger) in
  log InfoLevel logger "reconciling secret";;
  match SplitMetaNamespaceKey key with
  | (_, _, Some err) => mret (Some err)
  | (namespace, name, None) =>
      let logger := WithFields [("source-namespace", namespace);
                                ("source-secret", name)] logger in
      match c.(lister) namespace name with
      | GetErr err =>
          if IsNotFound (Some err) then
            log InfoLevel logger
              "not doing work for secret because it has been deleted";;
            mret None
          else
            log ErrorLevel (WithError err logger)
              "unable to retrieve secret from store";;
            mret (Some err)
      | GetOk source =>
          if negb (IsZero source.(secretObjectMeta).(DeletionTimestamp)) then
            log InfoLevel logger
              "not doing work for secret because it is being deleted";;
            mret None
          else
            mirrorErrors ← mirrorAll c namespace name source logger
                             c.(config).(Secrets) [];
            log InfoLevel logger "finished handling secret";;
            if Nat.ltb 0 (length mirrorErrors) then
              mret (Some (PlainError ("failed to mirror secret: "
                                      +:+ fmt_errors mirrorErrors)))
            else mret None
      end
  end.

Definition handleErr (c : SecretMirror) (err : option error) (key : string)
    : M unit :=
  match err with
  | None => onQueue (workqueue.Forget key)
  | Some e =>
      let logger := WithField "secret" key c.(logger) in
      log ErrorLevel logger ("error syncing secret: " +:+ Error e);;
      q ← getQueue;
      if Nat.ltb (workqueue.NumRequeues key q) maxRetries then
        log ErrorLevel logger "retrying secret";;
        onQueue (workqueue.AddRateLimited key)
      else
        HandleError e;;
        log InfoLevel logger
          ("dropping secret out of the queue: " +:+ Error e);;
        onQueue (workqueue.Forget key)
  end.

(** [processNextWorkItem]: [None] when [Get] never returns (nothing is
    pending or scheduled and the queue is not shut down). *)
Definition processNextWorkItem `{Quote} (c : SecretMirror)
    : M (option bool) :=
  q ← getQueue;
  match workqueue.Get q with
  | workqueue.Blocked => mret None
  | workqueue.Quit => mret (Some false)
  | workqueue.Got key q' =>
      onQueue (λ _, q');;
      err ← reconcile c key;
      handleErr c err key;;
      onQueue (workqueue.Done key);;
      mret (Some true)
  end.

(** [worker]: items are processed until the queue quits; the result is the
    number of items processed within [fuel] iterations. *)
Fixpoint worker `{Quote} (c : SecretMirror) (fuel : nat) : M nat :=
  match fuel with
  | O => mret 0
  | S fuel =>
      more ← processNextWorkItem c;
      match more with
      | Some true => n ← worker c fuel; mret (S n)
      | _ => mret 0
      end
  end.

(** ** The configuration agent *)

Module Agent.
Section Agent.

(** What the agent takes from outside: the state of the file system;
    [Load], which reads and parses the mapping file and is not among the
    sources, returning a configuration and an error as its callers use
    it; [Dir], which is [filepath.Dir]; [newWatcher], the error of
    [fsnotify.NewWatcher]; and [watcherAdd], the [Add] of the file
    watcher. *)
Variable FS : Type.
Variable Load : FS → string → option Configuration * option error.
Variable Dir : string → string.
Variable newWatcher : FS → option error.
Variable watcherAdd : FS → string → option error.

Record Agent := {
  c : option Configuration;       (* the published snapshot, nil at first *)
  watcher : option (list string)  (* the watcher and what it watches *) }.

Definition zero : Agent := {| c := None; watcher := None |}.

(** [Config]: the latest configuration. *)
Definition Config (ca : Agent) : option Configuration := ca.(c).

(** [Set]: the pointer is replaced. *)
Definition Set_ (c' : option Configuration) (ca : Agent) : Agent :=
  {| c := c'; watcher := ca.(watcher) |}.

(** What the watcher delivers on its two channels; an event carries the
    state of the file system the reload will find. *)
Inductive Msg :=
| Event (name : string) (fs : FS)
| EventsClosed
| WatchError (err : error)
| ErrorsClosed.

Definition St : Type := Agent * list LogEntry.

Definition logTo (lv : Level) (l : Logger) (msg : string) (s : St) : St :=
  (s.1, s.2 ++ [{| logLevel := lv; logFields := l; logMessage := msg |}]).

(** The first case of the [select]: an event arrived. *)
Definition onEvent (configLocation name : string) (fs : FS) (s : St) : St :=
  let s := logTo InfoLevel (WithField "event.Name" name [])
             "modified file in the watched folder." s in
  match Load fs configLocation with
  | (_, Some err) =>
      logTo ErrorLevel
        (WithError err (WithField "configLocation" configLocation []))
        "Error loading config." s
  | (loaded, None) => (Set_ loaded s.1, s.2)
  end.

(** The second case: an error of the watcher arrived. *)
Definition onError (err : error) (s : St) : St :=
  logTo ErrorLevel (WithError err []) "Error occurred (watcher.Errors)." s.

(** The goroutine of [Start] over the messages delivered; the boolean
    tells whether it is still in its loop. *)
Fixpoint watchLoop (configLocation : string) (msgs : list Msg) (s : St)
    : St * bool :=
  match msgs with
  | [] => (s, true)
  | Event name fs :: rest =>
      watchLoop configLocation rest (onEvent configLocation name fs s)
  | WatchError err :: rest => watchLoop configLocation rest (onError err s)
  | EventsClosed :: _ => (s, false)
  | ErrorsClosed :: _ => (s, false)
  end.

(** How a call ends: it returns, or the process exits in the middle of it
    ([logrus.Fatal] logs and exits). *)
Inductive Outcome :=
| Returned (err : option error)
| Exited.

(** [Start]: the first load aborts on failure; a watcher that cannot be
    created is fatal; then the directory of the file is watched. *)
Definition Start (fs : FS) (configLocation : string) (s : St)
    : St * Outcome :=
  match Load fs configLocation with
  | (_, Some err) => (s, Returned (Some err))
  | (loaded, None) =>
      let ca := Set_ loaded s.1 in
      match newWatcher fs with
      | Some err =>
          (logTo FatalLevel (WithError err []) "Error when creating watcher."
             (ca, s.2),
           Exited)
      | None =>
          let ca := {| c := ca.(c); watcher := Some [] |} in
          let watchingDir := Dir configLocation in
          let s := logTo InfoLevel (WithField "watchingDir" watchingDir [])
                     "watch dir" (ca, s.2) in
          match watcherAdd fs watchingDir with
          | Some err => (s, Returned (Some err))
          | None =>
              (({| c := s.1.(c); watcher := Some [watchingDir] |}, s.2),
               Returned None)
          end
      end
  end.

End Agent.
End Agent.

(** ** The scenario of [TestMirrorSecret] *)

Module Fixture.

Definition testConfig : Configuration :=
  {| Secrets :=
       [ {| From_ := {| locNamespace := "test-ns"; locName := "src" |};
            To := {| locNamespace := "test-ns"; locName := "dst" |} |} ] |}.

Definition meta (namespace name : string) : ObjectMeta :=
  {| Name := name; GenerateName := ""; Namespace := namespace; UID := "";
     ResourceVersion := ""; CreationTimestamp := 0%Z;
     DeletionTimestamp := None; Labels := None; Annotations := None;
     Finalizers := [] |}.

Definition secretWith (namespace name : string)
    (data : option (gmap string Go.bytes)) : Secret :=
  {| secretTypeMeta := zeroTypeMeta;
     secretObjectMeta := meta namespace name;
     Data := data; StringData := None; Type_ := "" |}.

Definition testData : option (gmap string Go.bytes) :=
  Some {[ "test_key" := Some (String.list_byte_of_string "test_value") ]}.

Definition defaultSecret : Secret := secretWith "test-ns" "src" testData.

Definition emptySecret : Secret := secretWith "test-ns" "src" None.

Definition notFound (name : string) : error :=
  StatusError StatusReasonNotFound ("secret " +:+ name +:+ " not found").

(** A cache that holds the given secrets and nothing else. *)
Fixpoint listerOf (secrets : list Secret) : SecretLister :=
  λ namespace name,
    match secrets with
    | [] => GetErr (notFound name)
    | s :: rest =>
        if String.eqb s.(secretObjectMeta).(Namespace) namespace
           && String.eqb s.(secretObjectMeta).(Name) name
        then GetOk s
        else listerOf rest namespace name
    end.

(** A client whose calls all succeed, and one with the reactor of the
    test: every create fails. *)
Definition okClient : Clientset := {| respond := λ _ _, None |}.

Definition failingCreate : Clientset :=
  {| respond := λ _ a,
       match a with
       | CreateAction _ _ => Some (PlainError "injected error")
       | UpdateAction _ _ => None
       end |}.

Definition world0 : World :=
  {| queue := workqueue.New; actions := []; logs := [] |}.

Definition toDst : SecretLocation :=
  {| locNamespace := "test-ns"; locName := "dst" |}.

(** A destination that already holds the data of the source. *)
Definition convergedDst : Secret := secretWith "test-ns" "dst" testData.

(** A destination with data, labels and a type of its own. *)
Definition staleDst : Secret :=
  {| secretTypeMeta := {| Kind := "Secret"; APIVersion := "v1" |};
     secretObjectMeta :=
       {| Name := "dst"; GenerateName := ""; Namespace := "test-ns";
          UID := "6f1c"; ResourceVersion := "42"; CreationTimestamp := 7%Z;
          DeletionTimestamp := None;
          Labels := Some {[ "team" := "ci" ]};
          Annotations := None; Finalizers := [] |};
     Data := Some {[ "test_key" := Some (String.list_byte_of_string "old") ]};
     StringData := None;
     Type_ := "Opaque" |}.

(** A source with data and labels that is being deleted. *)
Definition deletingSecret : Secret :=
  {| secretTypeMeta := zeroTypeMeta;
     secretObjectMeta :=
       {| Name := "src"; GenerateName := ""; Namespace := "test-ns";
          UID := ""; ResourceVersion := ""; CreationTimestamp := 0%Z;
          DeletionTimestamp := Some 1700000000%Z;
          Labels := Some {[ "team" := "ci" ]};
          Annotations := None; Finalizers := [] |};
     Data := testData; StringData := None; Type_ := "Opaque" |}.

(** The controller of the test over a given cache and client. *)
Definition mirror (secrets : list Secret) (cl : Clientset) : SecretMirror :=
  NewSecretMirror (listerOf secrets) cl testConfig.

(** A world whose queue holds the key of the test, and one in which that
    key has been requeued 15 times already. *)
Definition worldQueued : World :=
  {| queue := workqueue.Add "test-ns/src" workqueue.New;
     actions := []; logs := [] |}.

Definition worldAtCap : World :=
  {| queue :=
       {| workqueue.pending := []; workqueue.processing := {[ "test-ns/src" ]};
          workqueue.dirty := ∅;
          workqueue.requeueCount := {[ "test-ns/src" := 15 ]};
          workqueue.delayed := []; workqueue.shuttingDown := false |};
     actions := []; logs := [] |}.

(** A file system for the agent: what the mapping file parses to, or
    nothing while it cannot be read. *)
Definition FS : Type := option Configuration.

Definition Load (fs : FS) (path : string)
    : option Configuration * option error :=
  match fs with
  | Some cfg => (Some cfg, None)
  | None => (None, Some (PlainError ("open " +:+ path +:+ ": no such file")))
  end.

(** The rule of the test redirected to another destination. *)
Definition newConfig : Configuration :=
  {| Secrets :=
       [ {| From_ := {| locNamespace := "test-ns"; locName := "src" |};
            To := {| locNamespace := "prod-ns"; locName := "dst" |} |} ] |}.

Definition started : Agent.St :=
  ({| Agent.c := Some testConfig; Agent.watcher := Some ["/etc/mirror"] |},
   []).

(** A quoting for the scenarios, which is that of [strconv.Quote] on
    strings of ASCII bytes: the quote and the backslash are escaped,
    the control characters are written with their letter or in
    hexadecimal, and the printable characters stand for themselves. A
    byte above 127 is written in hexadecimal, as the library does for a
    byte outside a well-formed rune; the scenarios have no such byte. *)
Definition hexDigit (n : nat) : ascii :=
  if Nat.ltb n 10 then ascii_of_nat (48 + n) else ascii_of_nat (87 + n).

Definition quoteByte (ch : ascii) : string :=
  let n := nat_of_ascii ch in
  let escaped (x : ascii) := String "\" (String x EmptyString) in
  if Nat.eqb n 34 || Nat.eqb n 92 then escaped ch
  else if Nat.leb 32 n && Nat.leb n 126 then String ch EmptyString
  else if Nat.eqb n 7 then escaped "a"%char
  else if Nat.eqb n 8 then escaped "b"%char
  else if Nat.eqb n 12 then escaped "f"%char
  else if Nat.eqb n 10 then escaped "n"%char
  else if Nat.eqb n 13 then escaped "r"%char
  else if Nat.eqb n 9 then escaped "t"%char
  else if Nat.eqb n 11 then escaped "v"%char
  else String "\" (String "x" (String (hexDigit (n / 16))
                                 (String (hexDigit (n mod 16)) EmptyString))).

Fixpoint quoteBytes (s : string) : string :=
  match s with
  | EmptyString => EmptyString
  | String ch rest => quoteByte ch +:+ quoteBytes rest
  end.

Definition asciiQuote : Quote :=
  λ s, String (ascii_of_nat 34)
         (quoteBytes s +:+ String (ascii_of_nat 34) EmptyString).

End Fixture.


(** ** The event handlers of the controller *)

(** [cache.MetaNamespaceKeyFunc] on a secret: [namespace/name], or [name]
    alone when the namespace is empty; no error for an object that has
    metadata. *)
Definition MetaNamespaceKeyFunc (obj : Secret) : string * option error :=
  let m := obj.(secretObjectMeta) in
  if Nat.ltb 0 (String.length m.(Namespace)) then
    (m.(Namespace) +:+ "/" +:+ m.(Name), None)
  else (m.(Name), None).

(** [cache.DeletionHandlingMetaNamespaceKeyFunc] on a secret: the object
    is no tombstone of a deletion, the handlers are registered for adds
    and updates only. *)
Definition DeletionHandlingMetaNamespaceKeyFunc (obj : Secret)
    : string * option error :=
  MetaNamespaceKeyFunc obj.

(** [enqueue]; the rendering of the object in the error message is left
    out. *)
Definition enqueue (c : SecretMirror) (obj : Secret) : M unit :=
  match DeletionHandlingMetaNamespaceKeyFunc obj with
  | (_, Some err) =>
      HandleError (PlainError ("couldn't get key for object: " +:+ Error err))
  | (key, None) => onQueue (workqueue.Add key)
  end.

Definition add (c : SecretMirror) (obj : Secret) : M unit :=
  let secret := obj in
  log DebugLevel c.(logger)
    ("enqueueing added secret "
     +:+ secret.(secretObjectMeta).(Namespace) +:+ "/"
     +:+ secret.(secretObjectMeta).(Name));;
  enqueue c secret.

Definition update (c : SecretMirror) (old obj : Secret) : M unit :=
  let secret := obj in
  log DebugLevel c.(logger)
    ("enqueueing updated secret "
     +:+ secret.(secretObjectMeta).(Namespace) +:+ "/"
     +:+ secret.(secretObjectMeta).(Name));;
  enqueue c secret.

(** The number of ['/'] in a key. *)
Fixpoint slashes (s : string) : nat :=
  match s with
  | EmptyString => 0
  | String ch rest =>
      if Ascii.eqb ch "/"%char then S (slashes rest) else slashes rest
  end.

(** The namespace a write is addressed to, and the object it submits. *)
Definition actionNamespace (a : Action) : string :=
  match a with
  | CreateAction namespace _ => namespace
  | UpdateAction namespace _ => namespace
  end.

Definition actionObject (a : Action) : Secret :=
  match a with
  | CreateAction _ obj => obj
  | UpdateAction _ obj => obj
  end.

(** The rule test of the loop in [reconcile]. *)
Definition selected (namespace name : string) (mirrorConfig : MirrorConfig)
    : bool :=
  String.eqb mirrorConfig.(From_).(locNamespace) namespace
  && String.eqb mirrorConfig.(From_).(locName) name.

(** The object [mirrorSecret] builds for a destination that is missing. *)
Definition newDestination (to : SecretLocation)
    (data : option (gmap string Go.bytes)) : Secret :=
  {| secretTypeMeta := zeroTypeMeta;
     secretObjectMeta :=
       {| Name := to.(locName); GenerateName := "";
          Namespace := to.(locNamespace); UID := "";
          ResourceVersion := ""; CreationTimestamp := 0%Z;
          DeletionTimestamp := None; Labels := None;
          Annotations := None; Finalizers := [] |};
     Data := data;
     StringData := None;
     Type_ := "" |}.

(** ** The options of the command *)

Module cmd.
Section Options.

(** The levels of the logging library and its [ParseLevel], which are not
    among the sources; the level in force is the state [Validate] acts
    on. *)
Variable LogrusLevel : Type.
Variable ParseLevel : string → LogrusLevel * option error.

Record options := {
  configLocation : string;
  numWorkers : Z;
  logLevel : string }.

(** [%d] of an integer. *)
Definition fmt_int (n : Z) : string :=
  DecimalString.NilZero.string_of_int (Z.to_int n).

(** [bindOptions]: the defaults of the flags, [debug] being the name of
    the debug level. *)
Definition bindOptions : options :=
  {| configLocation := ""; numWorkers := 10; logLevel := "debug" |}.

(** [Validate], with the level in force before and after. *)
Definition Validate (o : options) (current : LogrusLevel)
    : option error * LogrusLevel :=
  match ParseLevel o.(logLevel) with
  | (_, Some err) =>
      (Some (PlainError ("failed to parse --log-level: " +:+ Error err)),
       current)
  | (level, None) =>
      if (o.(numWorkers) <? 1)%Z then
        (Some (PlainError
                 ("a non-zero, positive --num-workers is necessary, not "
                  +:+ fmt_int o.(numWorkers))),
         level)
      else if String.eqb o.(configLocation) "" then
        (Some (PlainError "a file path must be provided for --config"),
         level)
      else (None, level)
  end.

End Options.
End cmd.

(** ** More of the test scenario *)

Module Sample.

(** The rules of the second configuration of the agent's test, with one
    more destination for the first source. *)
Definition fanOut : Configuration :=
  {| Secrets :=
       [ {| From_ := {| locNamespace := "source-namespace-1";
                        locName := "dev-secret-1" |};
            To := {| locNamespace := "target-namespace-2";
                     locName := "prod-secret-1" |} |};
         {| From_ := {| locNamespace := "source-namespace-3";
                        locName := "dev-secret-1" |};
            To := {| locNamespace := "target-namespace-4";
                     locName := "prod-secret-1" |} |};
         {| From_ := {| locNamespace := "source-namespace-1";
                        locName := "dev-secret-1" |};
            To := {| locNamespace := "target-namespace-5";
                     locName := "prod-secret-2" |} |} ] |}.

Definition devSecret : Secret :=
  Fixture.secretWith "source-namespace-1" "dev-secret-1" Fixture.testData.

Definition fanOutMirror (cl : Clientset) : SecretMirror :=
  NewSecretMirror (Fixture.listerOf [devSecret]) cl fanOut.

(** A cache that fails with an error of the server for every lookup. *)
Definition brokenLister : SecretLister :=
  λ _ _, GetErr (StatusError StatusReasonForbidden "forbidden").

End Sample.

(** ** Queue states of a key that is retried *)

(** Nothing is checked out or marked dirty, the queue is open, [key] has
    been requeued [n] times and is either pending or scheduled, and no
    other key is. *)
Definition awaiting (key : string) (n : nat) (q : workqueue.Queue) : Prop :=
  q.(workqueue.processing) = ∅
  ∧ q.(workqueue.dirty) = ∅
  ∧ q.(workqueue.shuttingDown) = false
  ∧ workqueue.NumRequeues key q = n
  ∧ ((q.(workqueue.pending) = [key] ∧ q.(workqueue.delayed) = [])
     ∨ (q.(workqueue.pending) = []
        ∧ ∃ d, q.(workqueue.delayed) = [(d, key)])).

(** Nothing is pending, scheduled or checked out, and [key] has no
    requeues on record. *)
Definition idle (key : string) (q : workqueue.Queue) : Prop :=
  q.(workqueue.processing) = ∅
  ∧ q.(workqueue.dirty) = ∅
  ∧ q.(workqueue.shuttingDown) = false
  ∧ workqueue.NumRequeues key q = 0
  ∧ q.(workqueue.pending) = []
  ∧ q.(workqueue.delayed) = [].

(** * Properties *)

(** ** Deep equality *)

Lemma DeepEqual_bytes_eq (a b : Go.bytes) :
  Go.DeepEqual_bytes a b = true ↔ a = b.
Proof.
  destruct a as [x|], b as [y|]; simpl; try (split; congruence).
  rewrite bool_decide_eq_true. split; congruence.
Qed.

(** [reflect.DeepEqual] on the data of two secrets is equality of the
    embedded values. *)
Lemma DeepEqual_eq (a b : option (gmap string Go.bytes)) :
  Go.DeepEqual a b = true ↔ a = b.
Proof.
  destruct a as [m1|], b as [m2|]; simpl; try (split; congruence).
  rewrite andb_true_iff, bool_decide_eq_true, forallb_forall.
  split.
  - intros [Hsize Hall]. f_equal.
    apply map_subseteq_size_eq; [|lia].
    apply map_subseteq_spec. intros k v Hk.
    specialize (Hall (k, v)). simpl in Hall.
    destruct (m2 !! k) as [w|] eqn:Hw.
    + rewrite DeepEqual_bytes_eq in Hall. rewrite <- Hall; [done|].
      apply list_elem_of_In, elem_of_map_to_list. exact Hk.
    + discriminate Hall.
      apply list_elem_of_In, elem_of_map_to_list. exact Hk.
  - intros [= ->]. split; [done|].
    intros [k v] Hin. simpl.
    apply list_elem_of_In, elem_of_map_to_list in Hin.
    rewrite Hin. by apply DeepEqual_bytes_eq.
Qed.

Lemma DeepCopy_id (s : Secret) : DeepCopy s = s.
Proof. by destruct s as [? [] ? ? ?]. Qed.

(** ** Unfolding the monad *)

Ltac run_M :=
  repeat (progress (cbv [mbind M_bind mret M_ret log call onQueue getQueue
                         HandleError];
                    cbn [fst snd queue actions logs])).

(** ** [mirrorSecret] *)

Section MirrorSecret.

Context (c : SecretMirror) (source : Secret) (to : SecretLocation)
        (logger : Logger) (w : World).

(** The queue is not touched by a mirror. *)
Lemma mirrorSecret_queue :
  queue (mirrorSecret c source to logger w).2 = queue w.
Proof.
  unfold mirrorSecret. run_M.
  destruct (Nat.eqb _ _); [done|].
  destruct (lister c _ _) as [secret|getErr].
  - destruct (Go.DeepEqual _ _); done.
  - destruct (IsNotFound _); done.
Qed.

(** C5. A source whose Data is empty (a nil map or a map without keys)
    is skipped: [mirrorSecret] returns nil and issues neither a create
    nor an update, whatever the lister holds for the destination. *)
Theorem mirrorSecret_skips_empty_source :
  Go.len source.(Data) = 0 →
  (mirrorSecret c source to logger w).1 = None
  ∧ actions (mirrorSecret c source to logger w).2 = actions w.
Proof.
  intros Hlen. unfold mirrorSecret. run_M. by rewrite Hlen.
Qed.

(** C6. With a non-empty source and a destination that exists and holds
    deeply equal Data, [mirrorSecret] returns nil and issues no write. *)
Theorem mirrorSecret_converged_is_noop (secret : Secret) :
  Go.len source.(Data) ≠ 0 →
  c.(lister) to.(locNamespace) to.(locName) = GetOk secret →
  Go.DeepEqual secret.(Data) source.(Data) = true →
  (mirrorSecret c source to logger w).1 = None
  ∧ actions (mirrorSecret c source to logger w).2 = actions w.
Proof.
  intros Hlen Hget Heq. unfold mirrorSecret. run_M.
  destruct (Nat.eqb_spec (Go.len (Data source)) 0) as [|_]; [done|].
  by rewrite Hget, Heq.
Qed.

(** C7. With a non-empty source and a destination the lister reports as
    not found, [mirrorSecret] issues exactly one write: a create, in the
    destination namespace, of a secret with the destination name and
    namespace and the Data of the source; what [mirrorSecret] returns is
    what that create returned, so it is nil exactly when the create
    succeeded. *)
Theorem mirrorSecret_creates_missing_destination (getErr : error) :
  Go.len source.(Data) ≠ 0 →
  c.(lister) to.(locNamespace) to.(locName) = GetErr getErr →
  IsNotFound (Some getErr) = true →
  ∃ destination,
    actions (mirrorSecret c source to logger w).2
      = actions w ++ [CreateAction to.(locNamespace) destination]
    ∧ destination.(secretObjectMeta).(Namespace) = to.(locNamespace)
    ∧ destination.(secretObjectMeta).(Name) = to.(locName)
    ∧ destination.(Data) = source.(Data)
    ∧ (mirrorSecret c source to logger w).1
        = c.(client).(respond) (actions w)
            (CreateAction to.(locNamespace) destination).
Proof.
  intros Hlen Hget Hnf. unfold mirrorSecret. run_M.
  destruct (Nat.eqb_spec (Go.len (Data source)) 0) as [|_]; [done|].
  rewrite Hget, Hnf. cbn. eexists. repeat split; reflexivity.
Qed.

(** C8. With a non-empty source and a destination that exists with
    different Data, the object submitted to the update is the deep copy
    of the destination with its Data replaced by the Data of the source:
    type, metadata and every other field are those of the destination. *)
Theorem mirrorSecret_update_replaces_only_data (secret : Secret) :
  Go.len source.(Data) ≠ 0 →
  c.(lister) to.(locNamespace) to.(locName) = GetOk secret →
  Go.DeepEqual secret.(Data) source.(Data) = false →
  ∃ destination,
    actions (mirrorSecret c source to logger w).2
      = actions w ++ [UpdateAction to.(locNamespace) destination]
    ∧ destination = set_Data source.(Data) (DeepCopy secret)
    ∧ destination.(Data) = source.(Data)
    ∧ destination.(secretTypeMeta) = secret.(secretTypeMeta)
    ∧ destination.(secretObjectMeta) = secret.(secretObjectMeta)
    ∧ destination.(StringData) = secret.(StringData)
    ∧ destination.(Type_) = secret.(Type_).
Proof.
  intros Hlen Hget Hne. unfold mirrorSecret. run_M.
  destruct (Nat.eqb_spec (Go.len (Data source)) 0) as [|_]; [done|].
  rewrite Hget, Hne. cbn. eexists. split; [reflexivity|].
  rewrite DeepCopy_id. by destruct secret.
Qed.

(** C10. The secret [mirrorSecret] creates for a missing destination has
    the name and namespace of the destination and the Data of the
    source, and the zero value everywhere else: no labels, annotations,
    other metadata, string data or type come from the source. *)
Theorem mirrorSecret_created_object_is_bare (getErr : error) :
  Go.len source.(Data) ≠ 0 →
  c.(lister) to.(locNamespace) to.(locName) = GetErr getErr →
  IsNotFound (Some getErr) = true →
  actions (mirrorSecret c source to logger w).2
    = actions w ++
      [CreateAction to.(locNamespace)
         {| secretTypeMeta := zeroTypeMeta;
            secretObjectMeta :=
              {| Name := to.(locName);
                 GenerateName := zeroObjectMeta.(GenerateName);
                 Namespace := to.(locNamespace);
                 UID := zeroObjectMeta.(UID);
                 ResourceVersion := zeroObjectMeta.(ResourceVersion);
                 CreationTimestamp := zeroObjectMeta.(CreationTimestamp);
                 DeletionTimestamp := zeroObjectMeta.(DeletionTimestamp);
                 Labels := None;
                 Annotations := None;
                 Finalizers := zeroObjectMeta.(Finalizers) |};
            Data := source.(Data);
            StringData := None;
            Type_ := "" |}].
Proof.
  intros Hlen Hget Hnf. unfold mirrorSecret. run_M.
  destruct (Nat.eqb_spec (Go.len (Data source)) 0) as [|_]; [done|].
  by rewrite Hget, Hnf.
Qed.

End MirrorSecret.

(** ** [reconcile] *)

Section Reconcile.

Context `{quoting : Quote}.

Context (c : SecretMirror).

(** The rule test of the loop in [reconcile]. *)
Local Abbreviation selects namespace name :=
  (λ mirrorConfig : MirrorConfig,
     String.eqb mirrorConfig.(From_).(locNamespace) namespace
     && String.eqb mirrorConfig.(From_).(locName) name).

Lemma mirrorAll_queue namespace name source logger rules acc w :
  queue (mirrorAll c namespace name source logger rules acc w).2 = queue w.
Proof.
  revert acc w. induction rules as [|r rules IH]; intros acc w; [done|].
  cbn [mirrorAll]. destruct (selects namespace name r); [|apply IH].
  cbv [mbind M_bind].
  pose proof (mirrorSecret_queue c source (To r) logger w) as Hq.
  destruct (mirrorSecret c source (To r) logger w) as [err w'].
  rewrite IH. exact Hq.
Qed.

(** One result is appended for every selected rule, nil or not. *)
Lemma mirrorAll_length namespace name source logger rules acc w :
  length (mirrorAll c namespace name source logger rules acc w).1
  = length acc + length (filter (selects namespace name) rules).
Proof.
  revert acc w. induction rules as [|r rules IH]; intros acc w.
  - cbn. lia.
  - cbn [mirrorAll filter]. unfold filter. cbn [list_filter].
    destruct (decide _) as [Hsel|Hsel].
    + apply Is_true_true in Hsel. rewrite Hsel.
      cbv [mbind M_bind].
      destruct (mirrorSecret c source (To r) logger w) as [err w'].
      rewrite IH, length_app. cbn. unfold filter. lia.
    + apply Is_true_false in Hsel. rewrite Hsel. rewrite IH.
      unfold filter. lia.
Qed.

(** The queue is not touched by a reconciliation. *)
Lemma reconcile_queue key w : queue (reconcile c key w).2 = queue w.
Proof.
  unfold reconcile. run_M.
  destruct (SplitMetaNamespaceKey key) as [[namespace name] [err|]];
    [done|].
  destruct (lister c namespace name) as [source|err].
  - destruct (negb _); [done|]. run_M.
    match goal with |- context [mirrorAll ?a ?b ?d ?e ?f ?g ?h ?i] =>
      pose proof (mirrorAll_queue b d e f g h i) as Hq;
      destruct (mirrorAll a b d e f g h i) as [errs w'] end.
    run_M. destruct (Nat.ltb _ _); exact Hq.
  - destruct (IsNotFound _); done.
Qed.

(** What [reconcile] returns for a source that is found and not being
    deleted: an error as soon as one rule selects the source, whatever
    the mirrors returned. *)
Lemma reconcile_error_iff_rule_selected key namespace name source w :
  SplitMetaNamespaceKey key = (namespace, name, None) →
  c.(lister) namespace name = GetOk source →
  IsZero source.(secretObjectMeta).(DeletionTimestamp) = true →
  (reconcile c key w).1 ≠ None
  ↔ filter (selects namespace name) c.(config).(Secrets) ≠ [].
Proof.
  intros Hkey Hget Hzero. unfold reconcile. run_M.
  rewrite Hkey, Hget, Hzero. cbn [negb]. run_M.
  match goal with |- context [mirrorAll ?a ?b ?d ?e ?f ?g ?h ?i] =>
    pose proof (mirrorAll_length b d e f g h i) as Hlen;
    destruct (mirrorAll a b d e f g h i) as [errs w'] end.
  run_M. cbn [length Nat.add] in Hlen.
  destruct (filter _ _) as [|r rs] eqn:Hf.
  - cbn in Hlen. destruct errs; [|discriminate Hlen]. cbn. tauto.
  - destruct errs; [discriminate Hlen|]. cbn. split; intros _; congruence.
Qed.

(** C9. When the lookup of the source reports not-found, and when the
    source is found with a deletion timestamp that is not zero,
    [reconcile] returns nil and issues no write at all: no mirror is
    attempted and no deletion reaches a destination. *)
Theorem reconcile_noop_when_source_gone_or_deleting key namespace name w :
  SplitMetaNamespaceKey key = (namespace, name, None) →
  (∃ err, c.(lister) namespace name = GetErr err
          ∧ IsNotFound (Some err) = true)
  ∨ (∃ source, c.(lister) namespace name = GetOk source
               ∧ IsZero source.(secretObjectMeta).(DeletionTimestamp)
                 = false) →
  (reconcile c key w).1 = None
  ∧ actions (reconcile c key w).2 = actions w.
Proof.
  intros Hkey [(err & Hget & Hnf)|(source & Hget & Hdel)];
    unfold reconcile; run_M; rewrite Hkey, Hget.
  - by rewrite Hnf.
  - by rewrite Hdel.
Qed.

End Reconcile.

(** ** The retry policy *)

Section Retry.

Context `{quoting : Quote}.

Import workqueue.

Lemma Forget_spec key q :
  NumRequeues key (Forget key q) = 0
  ∧ pending (Forget key q) = pending q
  ∧ delayed (Forget key q) = delayed q.
Proof.
  unfold NumRequeues, Forget. cbn. by rewrite lookup_delete_eq.
Qed.

Lemma AddRateLimited_spec key q :
  NumRequeues key (AddRateLimited key q) = S (NumRequeues key q)
  ∧ pending (AddRateLimited key q) = pending q
  ∧ delayed (AddRateLimited key q)
    = delayed q ++ [(backoff (S (NumRequeues key q)), key)].
Proof.
  unfold AddRateLimited. cbn. unfold NumRequeues at 1. cbn.
  by rewrite lookup_insert_eq.
Qed.

(** A key that is awaiting delivery is what [Get] returns next. *)
Lemma Get_awaiting key n q :
  awaiting key n q →
  ∃ q', Get q = Got key q'
        ∧ processing q' = {[key]} ∧ dirty q' = ∅
        ∧ shuttingDown q' = false ∧ requeueCount q' = requeueCount q
        ∧ pending q' = [] ∧ delayed q' = [].
Proof.
  destruct q as [pe pr di rc de sd].
  intros (Hpr & Hdi & Hsd & Hn & [[Hpe Hde]|[Hpe [d Hde]]]);
    cbn in *; subst.
  - unfold Get. cbn. eexists. split; [reflexivity|]. cbn.
    repeat split; try done; apply (right_id_L ∅ (∪)).
  - unfold Get, elapse, Add. cbn.
    rewrite decide_False by set_solver.
    rewrite decide_False by set_solver.
    cbn. eexists. split; [reflexivity|]. cbn.
    repeat split; try done; apply (right_id_L ∅ (∪)).
Qed.

Lemma Get_idle key q : idle key q → Get q = Blocked.
Proof.
  destruct q as [pe pr di rc de sd].
  intros (Hpr & Hdi & Hsd & Hn & Hpe & Hde); cbn in *; subst.
  reflexivity.
Qed.

Context (c : SecretMirror).

Lemma handleErr_queue_nil key w :
  queue (handleErr c None key w).2 = Forget key (queue w).
Proof. reflexivity. Qed.

Lemma handleErr_queue_retry e key w :
  NumRequeues key (queue w) < maxRetries →
  queue (handleErr c (Some e) key w).2 = AddRateLimited key (queue w).
Proof.
  intros Hlt. unfold handleErr. run_M.
  destruct (Nat.ltb_spec (NumRequeues key (queue w)) maxRetries); [done|lia].
Qed.

Lemma handleErr_queue_drop e key w :
  maxRetries ≤ NumRequeues key (queue w) →
  queue (handleErr c (Some e) key w).2 = Forget key (queue w).
Proof.
  intros Hge. unfold handleErr. run_M.
  destruct (Nat.ltb_spec (NumRequeues key (queue w)) maxRetries); [lia|done].
Qed.

(** One item of a key whose handler fails: requeued below the cap,
    dropped at the cap. *)
Lemma processNextWorkItem_awaiting key n w :
  (∀ w, (reconcile c key w).1 ≠ None) →
  awaiting key n (queue w) →
  (processNextWorkItem c w).1 = Some true
  ∧ (n < maxRetries →
     awaiting key (S n) (queue (processNextWorkItem c w).2)
     ∧ delayed (queue (processNextWorkItem c w).2) = [(backoff (S n), key)])
  ∧ (maxRetries ≤ n → idle key (queue (processNextWorkItem c w).2)).
Proof.
  intros Hfail Haw.
  assert (NumRequeues key (queue w) = n) as Hn by apply Haw.
  destruct (Get_awaiting _ _ _ Haw)
    as (q' & Hget & Hpr & Hdi & Hsd & Hrc & Hpe & Hde).
  unfold processNextWorkItem. run_M. rewrite Hget. run_M.
  match goal with |- context [reconcile c key ?w1] =>
    pose proof (reconcile_queue c key w1) as Hq;
    pose proof (Hfail w1) as Herr;
    destruct (reconcile c key w1) as [[e|] w2]; [clear Herr|done] end.
  cbn in Hq.
  assert (NumRequeues key (queue w2) = n) as Hn2.
  { rewrite Hq. unfold NumRequeues. by rewrite Hrc. }
  destruct (Nat.lt_ge_cases n maxRetries) as [Hlt|Hge].
  - pose proof (handleErr_queue_retry e key w2 ltac:(lia)) as Hh.
    destruct (handleErr c (Some e) key w2) as [[] w3]. cbn in Hh. run_M.
    split; [done|]. split; [intros _|lia].
    rewrite Hh, Hq. unfold Done, AddRateLimited. cbn. rewrite Hdi.
    rewrite decide_False by set_solver. cbn.
    rewrite Hpr, Hpe, Hde, Hsd. rewrite <- Hq, Hn2. cbn.
    split; [|done]. unfold awaiting, NumRequeues. cbn.
    rewrite lookup_insert_eq. cbn.
    repeat split; try done; [apply difference_diag_L|]. right. eauto.
  - pose proof (handleErr_queue_drop e key w2 ltac:(lia)) as Hh.
    destruct (handleErr c (Some e) key w2) as [[] w3]. cbn in Hh. run_M.
    split; [done|]. split; [lia|intros _].
    rewrite Hh, Hq. unfold Done, Forget, idle, NumRequeues. cbn. rewrite Hdi.
    rewrite decide_False by set_solver. cbn.
    rewrite Hpr, Hpe, Hde, Hsd, lookup_delete_eq. cbn.
    repeat split; try done. apply difference_diag_L.
Qed.

Lemma processNextWorkItem_idle key w :
  idle key (queue w) → processNextWorkItem c w = (None, w).
Proof.
  intros Hidle. unfold processNextWorkItem. run_M.
  by rewrite (Get_idle _ _ Hidle).
Qed.

Lemma awaiting_Add_New key : awaiting key 0 (Add key New).
Proof.
  unfold Add, New. cbn.
  rewrite decide_False by set_solver. rewrite decide_False by set_solver.
  unfold awaiting, NumRequeues. cbn. rewrite lookup_empty. cbn. tauto.
Qed.

(** While the cap is not reached every item handled is one more requeue. *)
Lemma worker_requeues key :
  (∀ w, (reconcile c key w).1 ≠ None) →
  ∀ i n w,
    n + i ≤ maxRetries →
    awaiting key n (queue w) →
    (worker c i w).1 = i
    ∧ awaiting key (n + i) (queue (worker c i w).2)
    ∧ (0 < i →
       delayed (queue (worker c i w).2) = [(backoff (n + i), key)]).
Proof.
  intros Hfail. induction i as [|i IH]; intros n w Hle Haw.
  - cbn. rewrite Nat.add_0_r. split; [done|]. split; [done|lia].
  - destruct (processNextWorkItem_awaiting key n w Hfail Haw)
      as (Hres & Hretry & _).
    destruct Hretry as [Haw1 Hde1]; [lia|].
    cbn [worker]. cbv [mbind M_bind].
    destruct (processNextWorkItem c w) as [more w1]. cbn in Hres, Haw1, Hde1.
    subst more.
    destruct (IH (S n) w1 ltac:(lia) Haw1) as (Hcount & Haw2 & Hde2).
    assert (delayed (queue (worker c i w1).2) = [(backoff (S n + i), key)])
      as Hde3.
    { destruct i as [|i]; [|apply Hde2; lia].
      cbn [worker]. cbv [mret M_ret]. cbn [snd]. by rewrite Nat.add_0_r. }
    destruct (worker c i w1) as [k w2]. cbn [fst snd] in *. subst k.
    replace (n + S i) with (S n + i) by lia. done.
Qed.

(** From [n] requeues on, the worker handles the key [S m] more times,
    [n + m] being the cap, and leaves the queue idle. *)
Lemma worker_drops key :
  (∀ w, (reconcile c key w).1 ≠ None) →
  ∀ m n fuel w,
    n + m = maxRetries →
    m < fuel →
    awaiting key n (queue w) →
    (worker c fuel w).1 = S m ∧ idle key (queue (worker c fuel w).2).
Proof.
  intros Hfail. induction m as [|m IH]; intros n fuel w Hsum Hfuel Haw;
    (destruct fuel as [|fuel]; [lia|]);
    destruct (processNextWorkItem_awaiting key n w Hfail Haw)
      as (Hres & Hretry & Hdrop);
    cbn [worker]; cbv [mbind M_bind];
    destruct (processNextWorkItem c w) as [more w1];
    cbn in Hres, Hretry, Hdrop; subst more.
  - specialize (Hdrop ltac:(lia)).
    destruct fuel as [|fuel]; [done|].
    cbn [worker]. cbv [mbind M_bind].
    by rewrite (processNextWorkItem_idle key w1 Hdrop).
  - destruct Hretry as [Haw1 _]; [lia|].
    destruct (IH (S n) fuel w1 ltac:(lia) ltac:(lia) Haw1) as [Hcount Hidle].
    destruct (worker c fuel w1) as [k w2]. cbn in *. by subst k.
Qed.

(** C3. What [handleErr] does with the result of the sync handler: on nil
    the key is forgotten (its requeue count is zero afterwards) and is
    neither added nor scheduled; on an error with fewer than 15 requeues
    the key is added again through [AddRateLimited]; on an error with 15
    requeues or more the key is forgotten and neither added nor scheduled.
    Hence a key whose handler always fails is handled 16 times by the
    worker, the first 15 of which requeue it, and is then dropped: the
    queue is left with nothing pending or scheduled. *)
Theorem handleErr_bounded_retry (key : string) :
  (∀ w, queue (handleErr c None key w).2 = Forget key (queue w))
  ∧ (∀ e w, NumRequeues key (queue w) < 15 →
            queue (handleErr c (Some e) key w).2
            = AddRateLimited key (queue w))
  ∧ (∀ e w, 15 ≤ NumRequeues key (queue w) →
            queue (handleErr c (Some e) key w).2 = Forget key (queue w))
  ∧ (∀ q, NumRequeues key (Forget key q) = 0
          ∧ pending (Forget key q) = pending q
          ∧ delayed (Forget key q) = delayed q)
  ∧ (∀ q, NumRequeues key (AddRateLimited key q) = S (NumRequeues key q)
          ∧ delayed (AddRateLimited key q)
            = delayed q ++ [(backoff (S (NumRequeues key q)), key)])
  ∧ ((∀ w, (reconcile c key w).1 ≠ None) →
     ∀ w, queue w = Add key New →
       (∀ i, i ≤ 15 →
          (worker c i w).1 = i
          ∧ NumRequeues key (queue (worker c i w).2) = i
          ∧ (0 < i →
             pending (queue (worker c i w).2) = []
             ∧ delayed (queue (worker c i w).2) = [(backoff i, key)]))
       ∧ (∀ fuel, 16 ≤ fuel →
            (worker c fuel w).1 = 16
            ∧ NumRequeues key (queue (worker c fuel w).2) = 0
            ∧ pending (queue (worker c fuel w).2) = []
            ∧ delayed (queue (worker c fuel w).2) = [])).
Proof.
  split; [apply handleErr_queue_nil|].
  split; [intros e w H; by apply handleErr_queue_retry|].
  split; [intros e w H; by apply handleErr_queue_drop|].
  split; [intros q; apply Forget_spec|].
  split; [intros q; split; apply AddRateLimited_spec|].
  intros Hfail w Hw.
  assert (awaiting key 0 (queue w)) as Haw
    by (rewrite Hw; apply awaiting_Add_New).
  split.
  - intros i Hi.
    destruct (worker_requeues key Hfail i 0 w Hi Haw) as (Hcount & Haw' & Hde).
    cbn [Nat.add] in *. split; [done|]. split; [apply Haw'|].
    intros Hpos. specialize (Hde Hpos). split; [|done].
    destruct Haw' as (_ & _ & _ & _ & [[_ Hno]|[Hpe _]]); [|done].
    rewrite Hno in Hde. discriminate Hde.
  - intros fuel Hfuel.
    destruct (worker_drops key Hfail 15 0 fuel w eq_refl ltac:(lia) Haw)
      as [Hcount Hidle].
    split; [done|]. destruct Hidle as (_ & _ & _ & Hn & Hpe & Hde). done.
Qed.

End Retry.

(** ** The configuration agent *)

Section AgentProperties.

Context (FS : Type)
        (Load : FS → string → option Configuration * option error).

Lemma watchLoop_snoc configLocation msgs m s s1 :
  Agent.watchLoop FS Load configLocation msgs s = (s1, true) →
  Agent.watchLoop FS Load configLocation (msgs ++ [m]) s
  = Agent.watchLoop FS Load configLocation [m] s1.
Proof.
  revert s. induction msgs as [|m0 msgs IH]; intros s Hrun.
  - cbn in Hrun. by injection Hrun as ->.
  - destruct m0; cbn in Hrun |- *; try discriminate Hrun; by apply IH.
Qed.

(** C4. Every event the watch loop receives while it runs makes it load
    the configuration file again. When the load fails the agent is left
    as it was, so [Config] returns the snapshot it returned before, and
    the error only goes to the log; when the load succeeds [Config]
    returns the configuration just loaded. *)
Theorem watchLoop_event_reloads configLocation msgs name fs s s1 :
  Agent.watchLoop FS Load configLocation msgs s = (s1, true) →
  ∃ s2,
    Agent.watchLoop FS Load configLocation
      (msgs ++ [Agent.Event FS name fs]) s = (s2, true)
    ∧ match Load fs configLocation with
      | (_, Some err) =>
          s2.1 = s1.1
          ∧ Agent.Config s2.1 = Agent.Config s1.1
          ∧ ∃ entry,
              s2.2 = s1.2 ++ [entry;
                     {| logLevel := ErrorLevel;
                        logFields := [("configLocation", configLocation);
                                      ("error", Error err)];
                        logMessage := "Error loading config." |}]
      | (loaded, None) =>
          Agent.Config s2.1 = loaded
          ∧ Agent.watcher s2.1 = Agent.watcher s1.1
          ∧ ∃ entry, s2.2 = s1.2 ++ [entry]
      end.
Proof.
  intros Hrun. rewrite (watchLoop_snoc _ _ _ _ _ Hrun).
  cbn [Agent.watchLoop]. eexists. split; [reflexivity|].
  unfold Agent.onEvent.
  destruct (Load fs configLocation) as [loaded [err|]]; cbn.
  - split; [done|]. split; [done|]. eexists. by rewrite <- app_assoc.
  - split; [done|]. split; [done|]. by eexists.
Qed.

End AgentProperties.

(** ** The configuration a reconciliation reads *)

Section ConstructedConfiguration.

Context `{quoting : Quote}.




End ConstructedConfiguration.

(** ** The scenario of the test, evaluated *)

Section Scenario.

#[local] Existing Instance Fixture.asciiQuote.

Import Fixture.

(** C1, on the case "normal secret is copied" of [TestMirrorSecret]: the
    source exists, is not being deleted and has data, one rule selects it,
    the destination is missing and the create succeeds. The one call of
    [mirrorSecret] returns nil, and [reconcile] returns an error all the
    same: the nil result was appended to [mirrorErrors], whose length is
    what [reconcile] tests. *)
Theorem reconcile_fails_although_mirror_succeeded :
  let c := mirror [defaultSecret] okClient in
  (mirrorAll c "test-ns" "src" defaultSecret [] c.(config).(Secrets) []
     world0).1 = [None]
  ∧ actions (reconcile c "test-ns/src" world0).2
    = [CreateAction "test-ns" convergedDst]
  ∧ (reconcile c "test-ns/src" world0).1
    = Some (PlainError "failed to mirror secret: [<nil>]").
Proof. vm_compute. repeat split; reflexivity. Qed.


Lemma mirrorSecret_skips_empty_source_witness :
  Go.len emptySecret.(Data) = 0
  ∧ (mirrorSecret (mirror [emptySecret; staleDst] failingCreate)
       emptySecret toDst [] world0).1 = None
  ∧ actions (mirrorSecret (mirror [emptySecret; staleDst] failingCreate)
               emptySecret toDst [] world0).2 = [].
Proof.
  split; [reflexivity|].
  apply (mirrorSecret_skips_empty_source
           (mirror [emptySecret; staleDst] failingCreate)
           emptySecret toDst [] world0).
  reflexivity.
Defined.

Lemma mirrorSecret_converged_is_noop_witness :
  (mirrorSecret (mirror [defaultSecret; convergedDst] failingCreate)
     defaultSecret toDst [] world0).1 = None
  ∧ actions (mirrorSecret (mirror [defaultSecret; convergedDst] failingCreate)
               defaultSecret toDst [] world0).2 = [].
Proof.
  apply (mirrorSecret_converged_is_noop
           (mirror [defaultSecret; convergedDst] failingCreate)
           defaultSecret toDst [] world0 convergedDst).
  - vm_compute. discriminate.
  - reflexivity.
  - vm_compute. reflexivity.
Defined.

Lemma mirrorSecret_creates_missing_destination_witness :
  ∃ destination,
    actions (mirrorSecret (mirror [defaultSecret] failingCreate)
               defaultSecret toDst [] world0).2
      = [] ++ [CreateAction "test-ns" destination]
    ∧ destination.(secretObjectMeta).(Namespace) = "test-ns"
    ∧ destination.(secretObjectMeta).(Name) = "dst"
    ∧ destination.(Data) = testData
    ∧ (mirrorSecret (mirror [defaultSecret] failingCreate)
         defaultSecret toDst [] world0).1
      = failingCreate.(respond) [] (CreateAction "test-ns" destination).
Proof.
  apply (mirrorSecret_creates_missing_destination
           (mirror [defaultSecret] failingCreate)
           defaultSecret toDst [] world0 (notFound "dst")).
  - vm_compute. discriminate.
  - reflexivity.
  - reflexivity.
Defined.

Lemma mirrorSecret_update_replaces_only_data_witness :
  ∃ destination,
    actions (mirrorSecret (mirror [defaultSecret; staleDst] okClient)
               defaultSecret toDst [] world0).2
      = [] ++ [UpdateAction "test-ns" destination]
    ∧ destination = set_Data testData (DeepCopy staleDst)
    ∧ destination.(Data) = testData
    ∧ destination.(secretTypeMeta) = staleDst.(secretTypeMeta)
    ∧ destination.(secretObjectMeta) = staleDst.(secretObjectMeta)
    ∧ destination.(StringData) = staleDst.(StringData)
    ∧ destination.(Type_) = staleDst.(Type_).
Proof.
  apply (mirrorSecret_update_replaces_only_data
           (mirror [defaultSecret; staleDst] okClient)
           defaultSecret toDst [] world0 staleDst).
  - vm_compute. discriminate.
  - reflexivity.
  - vm_compute. reflexivity.
Defined.

Lemma mirrorSecret_created_object_is_bare_witness :
  actions (mirrorSecret (mirror [deletingSecret] okClient)
             deletingSecret toDst [] world0).2
  = [] ++ [CreateAction "test-ns" (secretWith "test-ns" "dst" testData)].
Proof.
  apply (mirrorSecret_created_object_is_bare
           (mirror [deletingSecret] okClient)
           deletingSecret toDst [] world0 (notFound "dst")).
  - vm_compute. discriminate.
  - reflexivity.
  - reflexivity.
Defined.

Lemma reconcile_noop_when_source_gone_or_deleting_witness :
  (reconcile (mirror [deletingSecret] okClient) "test-ns/src" world0).1 = None
  ∧ actions (reconcile (mirror [deletingSecret] okClient) "test-ns/src"
               world0).2 = [].
Proof.
  apply (reconcile_noop_when_source_gone_or_deleting
           (mirror [deletingSecret] okClient)
           "test-ns/src" "test-ns" "src" world0).
  - reflexivity.
  - right. exists deletingSecret. split; reflexivity.
Defined.

Lemma handleErr_bounded_retry_witness :
  queue (handleErr (mirror [defaultSecret] failingCreate)
           (Some (PlainError "injected error")) "test-ns/src" worldQueued).2
  = workqueue.AddRateLimited "test-ns/src" (queue worldQueued)
  ∧ queue (handleErr (mirror [defaultSecret] failingCreate)
             (Some (PlainError "injected error")) "test-ns/src" worldAtCap).2
    = workqueue.Forget "test-ns/src" (queue worldAtCap)
  ∧ (worker (mirror [defaultSecret] failingCreate) 20 worldQueued).1 = 16
  ∧ workqueue.pending
      (queue (worker (mirror [defaultSecret] failingCreate) 20 worldQueued).2)
    = []
  ∧ workqueue.delayed
      (queue (worker (mirror [defaultSecret] failingCreate) 20 worldQueued).2)
    = [].
Proof.
  destruct (handleErr_bounded_retry (mirror [defaultSecret] failingCreate)
              "test-ns/src") as (_ & Hretry & Hdrop & _ & _ & Hrun).
  split.
  { apply Hretry. vm_compute. lia. }
  split.
  { apply Hdrop. vm_compute. lia. }
  assert (∀ w, (reconcile (mirror [defaultSecret] failingCreate)
                  "test-ns/src" w).1 ≠ None) as Hfail.
  { intros w. vm_compute. discriminate. }
  destruct (Hrun Hfail worldQueued eq_refl) as [_ Hdropped].
  destruct (Hdropped 20 ltac:(lia)) as (Hcount & _ & Hpe & Hde).
  repeat split; assumption.
Defined.

Lemma watchLoop_event_reloads_witness :
  ∃ s2,
    Agent.watchLoop FS Load "/etc/mirror/mapping.yaml"
      ([Agent.WatchError FS (PlainError "overflow")]
       ++ [Agent.Event FS "/etc/mirror/..data" None]) started = (s2, true)
    ∧ s2.1 = started.1
    ∧ Agent.Config s2.1 = Some testConfig.
Proof.
  destruct (watchLoop_event_reloads FS Load "/etc/mirror/mapping.yaml"
              [Agent.WatchError FS (PlainError "overflow")]
              "/etc/mirror/..data" None started
              (Agent.onError (PlainError "overflow") started) eq_refl)
    as (s2 & Hrun & Hkept & Hconfig & _).
  exists s2. repeat split; assumption.
Defined.

End Scenario.

(** ** Keys *)

Section Keys.

Context `{quoting : Quote}.

Lemma Split_length s : length (Go.Split "/" s) = S (slashes s).
Proof.
  induction s as [|ch s IH]; [done|].
  cbn [Go.Split slashes]. destruct (Ascii.eqb ch "/"); cbn [length].
  - by rewrite IH.
  - destruct (Go.Split "/" s); [discriminate IH|exact IH].
Qed.

Lemma Split_no_slash s : slashes s = 0 → Go.Split "/" s = [s].
Proof.
  induction s as [|ch s IH]; [done|].
  cbn [Go.Split slashes]. destruct (Ascii.eqb ch "/"); [done|].
  intros H0. by rewrite (IH H0).
Qed.

Lemma Split_namespace_name namespace name :
  slashes namespace = 0 → slashes name = 0 →
  Go.Split "/" (namespace +:+ "/" +:+ name) = [namespace; name].
Proof.
  intros Hns Hname. change ("/" +:+ name) with (String "/" name).
  induction namespace as [|ch ns IH].
  - change (Go.Split "/" ("" +:+ String "/" name))
      with ("" :: Go.Split "/" name).
    by rewrite (Split_no_slash _ Hname).
  - cbn [slashes] in Hns.
    change (String ch ns +:+ String "/" name)
      with (String ch (ns +:+ String "/" name)).
    simpl Go.Split.
    destruct (Ascii.eqb ch "/"); [done|].
    by rewrite (IH Hns).
Qed.

(** X1. A key with two or more ['/'] is refused: [reconcile] returns the
    error of the key format and issues no write, whatever the cache and
    the configuration hold. *)
Theorem reconcile_refuses_malformed_key c key w :
  2 ≤ slashes key →
  (reconcile c key w).1
  = Some (PlainError ("unexpected key format: " +:+ fmt_q key))
  ∧ actions (reconcile c key w).2 = actions w.
Proof.
  intros Hsl. unfold reconcile, SplitMetaNamespaceKey. run_M.
  pose proof (Split_length key) as Hlen.
  destruct (Go.Split "/" key) as [|p1 [|p2 [|p3 ps]]]; cbn in Hlen;
    try lia; done.
Qed.

Lemma key_of_secret_split (obj : Secret) :
  slashes obj.(secretObjectMeta).(Namespace) = 0 →
  slashes obj.(secretObjectMeta).(Name) = 0 →
  (DeletionHandlingMetaNamespaceKeyFunc obj).2 = None
  ∧ SplitMetaNamespaceKey (DeletionHandlingMetaNamespaceKeyFunc obj).1
    = (obj.(secretObjectMeta).(Namespace), obj.(secretObjectMeta).(Name),
       None).
Proof.
  intros Hns Hname.
  unfold DeletionHandlingMetaNamespaceKeyFunc, MetaNamespaceKeyFunc.
  destruct (Namespace (secretObjectMeta obj)) as [|ch ns] eqn:Ens.
  - cbn. unfold SplitMetaNamespaceKey. by rewrite (Split_no_slash _ Hname).
  - cbn [String.length Nat.ltb Nat.leb fst snd]. split; [done|].
    unfold SplitMetaNamespaceKey.
    by rewrite (Split_namespace_name _ _ Hns Hname).
Qed.

(** X2. The key that [enqueue] computes for a secret is split back by
    [reconcile] into the namespace and the name of that secret, provided
    neither holds a ['/']; a secret without namespace has its name as key
    and is looked up in the empty namespace. *)
Theorem key_of_secret_splits_back (obj : Secret) :
  slashes obj.(secretObjectMeta).(Namespace) = 0 →
  slashes obj.(secretObjectMeta).(Name) = 0 →
  (DeletionHandlingMetaNamespaceKeyFunc obj).2 = None
  ∧ SplitMetaNamespaceKey (DeletionHandlingMetaNamespaceKeyFunc obj).1
    = (obj.(secretObjectMeta).(Namespace), obj.(secretObjectMeta).(Name),
       None).
Proof. apply key_of_secret_split. Qed.

End Keys.

(** ** What a mirror writes *)

Section MirrorFrame.

Context (c : SecretMirror).

(** The three ways [mirrorSecret] ends: nothing to do, a failed lookup of
    the destination, or one write whose answer is returned. *)
Lemma mirrorSecret_cases source to logger w :
  ((mirrorSecret c source to logger w).1 = None
   ∧ actions (mirrorSecret c source to logger w).2 = actions w)
  ∨ (∃ e, c.(lister) to.(locNamespace) to.(locName) = GetErr e
          ∧ IsNotFound (Some e) = false
          ∧ (mirrorSecret c source to logger w).1 = Some e
          ∧ actions (mirrorSecret c source to logger w).2 = actions w)
  ∨ (∃ a, actions (mirrorSecret c source to logger w).2 = actions w ++ [a]
          ∧ (mirrorSecret c source to logger w).1
            = c.(client).(respond) (actions w) a
          ∧ actionNamespace a = to.(locNamespace)
          ∧ (actionObject a).(Data) = source.(Data)
          ∧ Go.len source.(Data) ≠ 0).
Proof.
  unfold mirrorSecret. run_M.
  destruct (Nat.eqb_spec (Go.len (Data source)) 0) as [|Hlen]; [by left|].
  destruct (lister c _ _) as [secret|getErr].
  - destruct (Go.DeepEqual _ _); [by left|].
    right. right. cbn. eexists. by repeat split.
  - destruct (IsNotFound _) eqn:Hnf.
    + right. right. cbn. eexists. by repeat split.
    + right. left. by exists getErr.
Qed.

(** X3. An error returned by [mirrorSecret] is either the error of the
    lookup of the destination, other than not-found, and then no write was
    issued, or the answer of the one write it issued. *)
Theorem mirrorSecret_error_provenance source to logger w e :
  (mirrorSecret c source to logger w).1 = Some e →
  (c.(lister) to.(locNamespace) to.(locName) = GetErr e
   ∧ IsNotFound (Some e) = false
   ∧ actions (mirrorSecret c source to logger w).2 = actions w)
  ∨ (∃ a, actions (mirrorSecret c source to logger w).2 = actions w ++ [a]
          ∧ c.(client).(respond) (actions w) a = Some e).
Proof.
  intros Herr.
  destruct (mirrorSecret_cases source to logger w)
    as [[Hnil _]|[(e' & Hget & Hnf & Hres & Hact)|(a & Hact & Hres & _)]].
  - rewrite Hnil in Herr. discriminate Herr.
  - left. rewrite Hres in Herr. injection Herr as <-. done.
  - right. exists a. split; [done|]. by rewrite <- Hres.
Qed.

(** X4. [mirrorSecret] issues at most one write, after the writes issued
    before; that write is addressed to the namespace of the destination
    and submits the Data of the source, which is then not empty. *)
Theorem mirrorSecret_writes_source_data source to logger w :
  ∃ new,
    actions (mirrorSecret c source to logger w).2 = actions w ++ new
    ∧ length new ≤ 1
    ∧ ∀ a, a ∈ new →
        actionNamespace a = to.(locNamespace)
        ∧ (actionObject a).(Data) = source.(Data)
        ∧ Go.len (actionObject a).(Data) ≠ 0.
Proof.
  destruct (mirrorSecret_cases source to logger w)
    as [[_ Hact]|[(e & _ & _ & _ & Hact)|(a & Hact & _ & Hns & Hdata & Hlen)]].
  - exists []. rewrite Hact, app_nil_r. split; [done|]. split; [cbn; lia|].
    intros a Ha. by apply elem_of_nil in Ha.
  - exists []. rewrite Hact, app_nil_r. split; [done|]. split; [cbn; lia|].
    intros a Ha. by apply elem_of_nil in Ha.
  - exists [a]. split; [done|]. split; [cbn; lia|].
    intros a' Ha. apply list_elem_of_singleton in Ha as ->.
    by rewrite Hdata.
Qed.

(** X5. Once the cache holds the object that a mirror wrote, the mirror
    is a no-op: whatever client and world it runs in, it returns nil and
    issues no write. *)
Theorem mirrorSecret_rerun_after_write_is_noop
    (c' : SecretMirror) source to logger logger' w w' a :
  actions (mirrorSecret c source to logger w).2 = actions w ++ [a] →
  c'.(lister) to.(locNamespace) to.(locName) = GetOk (actionObject a) →
  (mirrorSecret c' source to logger' w').1 = None
  ∧ actions (mirrorSecret c' source to logger' w').2 = actions w'.
Proof.
  intros Hwrite Hget.
  assert ((actionObject a).(Data) = source.(Data)
          ∧ Go.len source.(Data) ≠ 0) as [Hdata Hlen].
  { destruct (mirrorSecret_cases source to logger w)
      as [[_ Hact]|[(e & _ & _ & _ & Hact)|(a' & Hact & _ & _ & Hd & Hl)]].
    - rewrite Hact in Hwrite. rewrite <- (app_nil_r (actions w)) in Hwrite at 1.
      apply app_inv_head in Hwrite. discriminate Hwrite.
    - rewrite Hact in Hwrite. rewrite <- (app_nil_r (actions w)) in Hwrite at 1.
      apply app_inv_head in Hwrite. discriminate Hwrite.
    - rewrite Hact in Hwrite. apply app_inv_head in Hwrite.
      injection Hwrite as ->. done. }
  unfold mirrorSecret. run_M.
  destruct (Nat.eqb_spec (Go.len (Data source)) 0) as [|_]; [done|].
  rewrite Hget.
  by rewrite (proj2 (DeepEqual_eq _ _) Hdata).
Qed.

End MirrorFrame.

(** ** What a reconciliation writes *)

Section ReconcileFrame.

Context `{quoting : Quote}.

Context (c : SecretMirror).

Lemma mirrorAll_unselected namespace name source logger rules acc w :
  filter (selected namespace name) rules = [] →
  mirrorAll c namespace name source logger rules acc w = (acc, w).
Proof.
  revert acc w. induction rules as [|r rules IH]; intros acc w Hnone; [done|].
  cbn [mirrorAll]. fold (selected namespace name r).
  destruct (selected namespace name r) eqn:Hsel.
  - rewrite filter_cons_True in Hnone by (by rewrite Hsel). discriminate Hnone.
  - rewrite filter_cons_False in Hnone by (rewrite Hsel; intros []). by apply IH.
Qed.

Lemma mirrorAll_frame namespace name source logger rules acc w :
  ∃ new,
    actions (mirrorAll c namespace name source logger rules acc w).2
    = actions w ++ new
    ∧ length new ≤ length (filter (selected namespace name) rules)
    ∧ ∀ a, a ∈ new →
        ∃ r, r ∈ rules ∧ selected namespace name r = true
             ∧ actionNamespace a = r.(To).(locNamespace)
             ∧ (actionObject a).(Data) = source.(Data).
Proof.
  revert acc w. induction rules as [|r rules IH]; intros acc w.
  - exists []. cbn. rewrite app_nil_r. split; [done|]. split; [done|].
    intros a Ha. by apply elem_of_nil in Ha.
  - cbn [mirrorAll]. fold (selected namespace name r).
    destruct (selected namespace name r) eqn:Hsel.
    + rewrite filter_cons_True by (by rewrite Hsel).
      cbv [mbind M_bind].
      pose proof (mirrorSecret_cases c source (To r) logger w) as Hcases.
      destruct (mirrorSecret c source (To r) logger w) as [err w1].
      cbn [fst snd] in Hcases.
      destruct (IH (acc ++ [err]) w1) as (new & Hact & Hlen & Hall).
      assert (∀ a, a ∈ new →
                ∃ r0, r0 ∈ r :: rules ∧ selected namespace name r0 = true
                      ∧ actionNamespace a = r0.(To).(locNamespace)
                      ∧ (actionObject a).(Data) = source.(Data)) as Hall'.
      { intros a Ha. destruct (Hall a Ha) as (r0 & Hin & Hrest).
        exists r0. split; [by apply list_elem_of_further|done]. }
      destruct Hcases
        as [[_ Hw1]|[(e & _ & _ & _ & Hw1)|(a & Hw1 & _ & Hns & Hdata & _)]].
      * exists new. rewrite Hact, Hw1. split; [done|]. split; [cbn; lia|done].
      * exists new. rewrite Hact, Hw1. split; [done|]. split; [cbn; lia|done].
      * exists (a :: new). rewrite Hact, Hw1, <- app_assoc.
        split; [done|]. split; [cbn; lia|].
        intros a' Ha. apply elem_of_cons in Ha as [->|Ha]; [|by apply Hall'].
        exists r. split; [apply list_elem_of_here|done].
    + rewrite filter_cons_False by (rewrite Hsel; intros []).
      destruct (IH acc w) as (new & Hact & Hlen & Hall).
      exists new. split; [done|]. split; [done|].
      intros a Ha. destruct (Hall a Ha) as (r0 & Hin & Hrest).
      exists r0. split; [by apply list_elem_of_further|done].
Qed.

Lemma mirrorAll_creates namespace name source logger rules acc w :
  Go.len source.(Data) ≠ 0 →
  (∀ r, r ∈ rules → selected namespace name r = true →
        ∃ e, c.(lister) r.(To).(locNamespace) r.(To).(locName) = GetErr e
             ∧ IsNotFound (Some e) = true) →
  actions (mirrorAll c namespace name source logger rules acc w).2
  = actions w
    ++ map (λ r, CreateAction r.(To).(locNamespace)
                   (newDestination r.(To) source.(Data)))
         (filter (selected namespace name) rules).
Proof.
  intros Hlen. revert acc w.
  induction rules as [|r rules IH]; intros acc w Hmissing.
  - cbn. by rewrite app_nil_r.
  - assert (∀ r0, r0 ∈ rules → selected namespace name r0 = true →
              ∃ e, c.(lister) r0.(To).(locNamespace) r0.(To).(locName)
                   = GetErr e ∧ IsNotFound (Some e) = true) as Hrest.
    { intros r0 Hin. apply Hmissing. by apply list_elem_of_further. }
    cbn [mirrorAll]. fold (selected namespace name r).
    destruct (selected namespace name r) eqn:Hsel.
    + rewrite filter_cons_True by (by rewrite Hsel).
      destruct (Hmissing r (list_elem_of_here _ _) Hsel) as (e & Hget & Hnf).
      cbv [mbind M_bind].
      assert (actions (mirrorSecret c source (To r) logger w).2
              = actions w ++ [CreateAction r.(To).(locNamespace)
                                (newDestination r.(To) source.(Data))])
        as Hw1.
      { unfold mirrorSecret. run_M.
        destruct (Nat.eqb_spec (Go.len (Data source)) 0) as [|_]; [done|].
        by rewrite Hget, Hnf. }
      destruct (mirrorSecret c source (To r) logger w) as [err w1].
      cbn [snd] in Hw1. rewrite (IH _ _ Hrest), Hw1, <- app_assoc. done.
    + rewrite filter_cons_False by (rewrite Hsel; intros []). by apply IH.
Qed.

(** X6. An error of the lookup of the source other than not-found is
    returned by [reconcile] as it is, and no write is issued. *)
Theorem reconcile_returns_lookup_error key namespace name err w :
  SplitMetaNamespaceKey key = (namespace, name, None) →
  c.(lister) namespace name = GetErr err →
  IsNotFound (Some err) = false →
  (reconcile c key w).1 = Some err
  ∧ actions (reconcile c key w).2 = actions w.
Proof.
  intros Hkey Hget Hnf. unfold reconcile. run_M.
  by rewrite Hkey, Hget, Hnf.
Qed.

(** X7. A source that no rule of the configuration selects is left alone:
    [reconcile] returns nil and issues no write. *)
Theorem reconcile_unselected_source_is_noop key namespace name source w :
  SplitMetaNamespaceKey key = (namespace, name, None) →
  c.(lister) namespace name = GetOk source →
  filter (selected namespace name) c.(config).(Secrets) = [] →
  (reconcile c key w).1 = None
  ∧ actions (reconcile c key w).2 = actions w.
Proof.
  intros Hkey Hget Hnone. unfold reconcile. run_M.
  rewrite Hkey, Hget. destruct (negb _); [done|]. run_M.
  by rewrite (mirrorAll_unselected _ _ _ _ _ _ _ Hnone).
Qed.

(** X8. Every write [reconcile] issues comes after the writes issued
    before, is addressed to the destination namespace of a rule of the
    configuration whose source is the secret of the key, and submits the
    Data of that secret as the cache holds it. *)
Theorem reconcile_writes_only_for_selected_rules key w :
  ∃ new,
    actions (reconcile c key w).2 = actions w ++ new
    ∧ ∀ a, a ∈ new →
        ∃ namespace name source r,
          SplitMetaNamespaceKey key = (namespace, name, None)
          ∧ c.(lister) namespace name = GetOk source
          ∧ r ∈ c.(config).(Secrets)
          ∧ selected namespace name r = true
          ∧ actionNamespace a = r.(To).(locNamespace)
          ∧ (actionObject a).(Data) = source.(Data).
Proof.
  assert (∀ l : list Action, ∃ new : list Action,
            l = l ++ new ∧ ∀ a, a ∈ new → False) as Hnothing.
  { intros l. exists []. rewrite app_nil_r. split; [done|].
    intros a Ha. by apply elem_of_nil in Ha. }
  unfold reconcile. run_M.
  destruct (SplitMetaNamespaceKey key) as [[namespace name] [err|]] eqn:Hkey.
  { destruct (Hnothing (actions w)) as (new & Hact & Hno).
    exists new. split; [done|]. intros a Ha. destruct (Hno a Ha). }
  destruct (lister c namespace name) as [source|err] eqn:Hget.
  - destruct (negb _).
    { destruct (Hnothing (actions w)) as (new & Hact & Hno).
      exists new. split; [done|]. intros a Ha. destruct (Hno a Ha). }
    run_M.
    match goal with |- context [mirrorAll ?a ?b ?d ?e ?f ?g ?h ?i] =>
      destruct (mirrorAll_frame b d e f g h i) as (new & Hact & _ & Hall);
      destruct (mirrorAll a b d e f g h i) as [errs w1] end.
    run_M. cbn [snd actions] in Hact.
    exists new. split; [by destruct (Nat.ltb _ _)|].
    intros a Ha. destruct (Hall a Ha) as (r & Hin & Hsel & Hns & Hdata).
    by exists namespace, name, source, r.
  - destruct (Hnothing (actions w)) as (new & Hact & Hno).
    exists new. split; [by destruct (IsNotFound _)|].
    intros a Ha. destruct (Hno a Ha).
Qed.

(** X9. When the source has data, is not being deleted, and the cache
    reports every destination of the rules that select it as not found,
    [reconcile] issues one create per selected rule, in the order of the
    configuration and whatever the creates before it returned: a failed
    create does not stop the rules after it. *)
Theorem reconcile_creates_for_every_selected_rule
    key namespace name source w :
  SplitMetaNamespaceKey key = (namespace, name, None) →
  c.(lister) namespace name = GetOk source →
  IsZero source.(secretObjectMeta).(DeletionTimestamp) = true →
  Go.len source.(Data) ≠ 0 →
  (∀ r, r ∈ c.(config).(Secrets) → selected namespace name r = true →
        ∃ e, c.(lister) r.(To).(locNamespace) r.(To).(locName) = GetErr e
             ∧ IsNotFound (Some e) = true) →
  actions (reconcile c key w).2
  = actions w
    ++ map (λ r, CreateAction r.(To).(locNamespace)
                   (newDestination r.(To) source.(Data)))
         (filter (selected namespace name) c.(config).(Secrets)).
Proof.
  intros Hkey Hget Hzero Hlen Hmissing. unfold reconcile. run_M.
  rewrite Hkey, Hget, Hzero. cbn [negb]. run_M.
  match goal with |- context [mirrorAll ?a ?b ?d ?e ?f ?g ?h ?i] =>
    pose proof (mirrorAll_creates b d e f g h i Hlen Hmissing) as Hact;
    destruct (mirrorAll a b d e f g h i) as [errs w1] end.
  run_M. cbn [snd actions] in Hact. by destruct (Nat.ltb _ _).
Qed.

End ReconcileFrame.

(** ** Items of the queue *)

Section Items.

Context `{quoting : Quote}.

Import workqueue.

Context (c : SecretMirror).

(** [handleErr] only acts on the requeue count and the timers. *)
Lemma handleErr_keeps_sets err key w :
  processing (queue (handleErr c err key w).2) = processing (queue w)
  ∧ dirty (queue (handleErr c err key w).2) = dirty (queue w)
  ∧ pending (queue (handleErr c err key w).2) = pending (queue w)
  ∧ actions (handleErr c err key w).2 = actions w.
Proof.
  unfold handleErr. destruct err as [e|]; run_M; [|done].
  by destruct (Nat.ltb _ _).
Qed.

(** The writes of an item are those of the reconciliation of its key. *)
Lemma processNextWorkItem_actions key q' w :
  Get (queue w) = Got key q' →
  (processNextWorkItem c w).1 = Some true
  ∧ actions (processNextWorkItem c w).2
    = actions (reconcile c key
                 {| queue := q'; actions := actions w; logs := logs w |}).2.
Proof.
  intros Hget. unfold processNextWorkItem. run_M. rewrite Hget. run_M.
  destruct (reconcile c key _) as [err w2]. cbn [snd].
  pose proof (handleErr_keeps_sets err key w2) as (_ & _ & _ & Hact).
  destruct (handleErr c err key w2) as [[] w3]. cbn [snd] in Hact. run_M.
  done.
Qed.

(** One item of a key whose handler succeeds: the key is forgotten and
    nothing is left. *)
Lemma processNextWorkItem_success key n w :
  (∀ w, (reconcile c key w).1 = None) →
  awaiting key n (queue w) →
  (processNextWorkItem c w).1 = Some true
  ∧ idle key (queue (processNextWorkItem c w).2).
Proof.
  intros Hok Haw.
  destruct (Get_awaiting _ _ _ Haw)
    as (q' & Hget & Hpr & Hdi & Hsd & Hrc & Hpe & Hde).
  unfold processNextWorkItem. run_M. rewrite Hget. run_M.
  match goal with |- context [reconcile c key ?w1] =>
    pose proof (reconcile_queue c key w1) as Hq;
    pose proof (Hok w1) as Hres;
    destruct (reconcile c key w1) as [err w2] end.
  cbn in Hq, Hres. subst err. unfold handleErr. run_M. split; [done|].
  rewrite Hq. unfold Done, Forget, idle, NumRequeues. cbn. rewrite Hdi.
  rewrite decide_False by set_solver. cbn.
  rewrite Hpr, Hpe, Hde, Hsd, lookup_delete_eq. cbn.
  repeat split; try done. apply difference_diag_L.
Qed.

(** X10. A success resets the retries: when the handler returns nil for a
    key that is awaiting delivery, whatever the number of requeues on
    record, the item is handled, the requeue count of the key is zero
    afterwards, and the key is neither pending, scheduled nor checked
    out. *)
Theorem processNextWorkItem_success_forgets key n w :
  (∀ w, (reconcile c key w).1 = None) →
  awaiting key n (queue w) →
  (processNextWorkItem c w).1 = Some true
  ∧ NumRequeues key (queue (processNextWorkItem c w).2) = 0
  ∧ pending (queue (processNextWorkItem c w).2) = []
  ∧ delayed (queue (processNextWorkItem c w).2) = []
  ∧ processing (queue (processNextWorkItem c w).2) = ∅.
Proof.
  intros Hok Haw.
  destruct (processNextWorkItem_success key n w Hok Haw)
    as (Hres & Hpr & _ & _ & Hn & Hpe & Hde).
  done.
Qed.

(** X11. An item never stays checked out: whatever the handler returns,
    the key that [Get] delivered is not in the processing set when
    [processNextWorkItem] returns, and the other keys checked out are the
    same as before. *)
Theorem processNextWorkItem_releases_key key q' w :
  Get (queue w) = Got key q' →
  (processNextWorkItem c w).1 = Some true
  ∧ (key ∉ processing (queue (processNextWorkItem c w).2))
  ∧ processing (queue (processNextWorkItem c w).2)
    = (processing q') ∖ {[key]}.
Proof.
  intros Hget. unfold processNextWorkItem. run_M. rewrite Hget. run_M.
  match goal with |- context [reconcile c key ?w1] =>
    pose proof (reconcile_queue c key w1) as Hq;
    destruct (reconcile c key w1) as [err w2] end.
  cbn in Hq.
  pose proof (handleErr_keeps_sets err key w2) as (Hpr & _ & _ & _).
  destruct (handleErr c err key w2) as [[] w3]. cbn [snd] in Hpr. run_M.
  split; [done|].
  assert (processing (Done key (queue w3)) = (processing q') ∖ {[key]}) as ->.
  { unfold Done. destruct (decide _); cbn; by rewrite Hpr, Hq. }
  split; [|done].
  intros [_ Hnot]%elem_of_difference. apply Hnot. by apply elem_of_singleton.
Qed.

(** The lookups after which [reconcile] has nothing to do. *)
Lemma reconcile_vanished key namespace name w :
  SplitMetaNamespaceKey key = (namespace, name, None) →
  (∃ err, c.(lister) namespace name = GetErr err
          ∧ IsNotFound (Some err) = true)
  ∨ (∃ source, c.(lister) namespace name = GetOk source
               ∧ IsZero source.(secretObjectMeta).(DeletionTimestamp)
                 = false) →
  (reconcile c key w).1 = None
  ∧ actions (reconcile c key w).2 = actions w.
Proof.
  intros Hkey [(err & Hget & Hnf)|(source & Hget & Hdel)];
    unfold reconcile; run_M; rewrite Hkey, Hget.
  - by rewrite Hnf.
  - by rewrite Hdel.
Qed.

(** X12. From the event to the queue and back: when a secret is added
    while the queue is empty, and the cache then reports it as not found
    or as being deleted, the worker handles exactly one item, issues no
    write, and leaves nothing pending, scheduled or on record for the
    key. *)
Theorem add_of_vanished_secret_is_consumed (obj : Secret) w fuel :
  queue w = New →
  slashes obj.(secretObjectMeta).(Namespace) = 0 →
  slashes obj.(secretObjectMeta).(Name) = 0 →
  (∃ err, c.(lister) obj.(secretObjectMeta).(Namespace)
            obj.(secretObjectMeta).(Name) = GetErr err
          ∧ IsNotFound (Some err) = true)
  ∨ (∃ source, c.(lister) obj.(secretObjectMeta).(Namespace)
                 obj.(secretObjectMeta).(Name) = GetOk source
               ∧ IsZero source.(secretObjectMeta).(DeletionTimestamp)
                 = false) →
  0 < fuel →
  (worker c fuel (add c obj w).2).1 = 1
  ∧ actions (worker c fuel (add c obj w).2).2 = actions w
  ∧ idle (DeletionHandlingMetaNamespaceKeyFunc obj).1
      (queue (worker c fuel (add c obj w).2).2).
Proof.
  intros Hnew Hns Hname Hgone Hfuel.
  destruct (key_of_secret_split obj Hns Hname) as [Herr Hsplit].
  set (key := (DeletionHandlingMetaNamespaceKeyFunc obj).1) in *.
  assert (∀ w, (reconcile c key w).1 = None
               ∧ actions (reconcile c key w).2 = actions w) as Hnoop.
  { intros w0. by apply (reconcile_vanished key _ _ w0 Hsplit). }
  assert (queue (add c obj w).2 = Add key New
          ∧ actions (add c obj w).2 = actions w) as [Hq Hact].
  { unfold add, enqueue. run_M. subst key.
    destruct (DeletionHandlingMetaNamespaceKeyFunc obj) as [k [e|]];
      [discriminate Herr|]. cbn. by rewrite Hnew. }
  destruct (add c obj w) as [[] w1]. cbn [snd] in *.
  assert (awaiting key 0 (queue w1)) as Haw
    by (rewrite Hq; apply awaiting_Add_New).
  destruct (Get_awaiting _ _ _ Haw) as (q' & Hget & _).
  destruct (processNextWorkItem_actions key q' w1 Hget) as [_ Hact1].
  rewrite (proj2 (Hnoop _)) in Hact1. cbn [actions] in Hact1.
  destruct (processNextWorkItem_success key 0 w1
              (λ w0, proj1 (Hnoop w0)) Haw) as [Hres Hidle].
  destruct fuel as [|fuel]; [lia|].
  cbn [worker]. cbv [mbind M_bind].
  destruct (processNextWorkItem c w1) as [more w2]. cbn [fst snd] in *.
  subst more.
  destruct fuel as [|fuel].
  - cbn. by rewrite Hact1, Hact.
  - cbn [worker]. cbv [mbind M_bind].
    rewrite (processNextWorkItem_idle c key w2 Hidle). cbn.
    by rewrite Hact1, Hact.
Qed.

End Items.

(** ** The agent over a run of the watcher *)

Section AgentRuns.

Context (FS : Type)
        (Load : FS → string → option Configuration * option error).

(** X13. [Start] aborts on a failed first load, returning its error and
    publishing nothing. After a successful load the configuration loaded
    is published; if the watcher cannot be created the process then exits
    with a fatal log line and [Start] does not return; otherwise [Start]
    returns what registering the directory of the file with the watcher
    returned, so that a failed registration is reported although the
    snapshot is already published; on success the watcher watches that
    directory and nothing else. *)
Theorem Start_publishes_or_aborts
    (Dir : string → string) (newWatcher : FS → option error)
    (watcherAdd : FS → string → option error) fs configLocation s :
  let r := Agent.Start FS Load Dir newWatcher watcherAdd fs configLocation s in
  match Load fs configLocation with
  | (_, Some err) => r = (s, Agent.Returned (Some err))
  | (loaded, None) =>
      Agent.Config r.1.1 = loaded
      ∧ match newWatcher fs with
        | Some err =>
            r.2 = Agent.Exited
            ∧ Agent.watcher r.1.1 = Agent.watcher s.1
            ∧ r.1.2
              = s.2 ++ [{| logLevel := FatalLevel;
                           logFields := [("error", Error err)];
                           logMessage := "Error when creating watcher." |}]
        | None =>
            r.2 = Agent.Returned (watcherAdd fs (Dir configLocation))
            ∧ match watcherAdd fs (Dir configLocation) with
              | None => Agent.watcher r.1.1 = Some [Dir configLocation]
              | Some _ => Agent.watcher r.1.1 = Some []
              end
        end
  end.
Proof.
  unfold Agent.Start.
  destruct (Load fs configLocation) as [loaded [err|]]; [done|].
  destruct (newWatcher fs) as [err|]; [done|].
  by destruct (watcherAdd fs (Dir configLocation)).
Qed.

(** X14. Whatever the watcher delivers, the snapshot the agent publishes
    afterwards is the one it published before or the configuration of a
    load that succeeded for one of the events delivered: nothing of a
    failed load and nothing of an error of the watcher is ever published,
    and the watcher of the agent is not replaced. *)
Theorem watchLoop_publishes_only_loaded configLocation msgs s :
  (Agent.Config (Agent.watchLoop FS Load configLocation msgs s).1.1
   = Agent.Config s.1
   ∨ ∃ name fs,
       Agent.Event FS name fs ∈ msgs
       ∧ Load fs configLocation
         = (Agent.Config (Agent.watchLoop FS Load configLocation msgs s).1.1,
            None))
  ∧ Agent.watcher (Agent.watchLoop FS Load configLocation msgs s).1.1
    = Agent.watcher s.1.
Proof.
  revert s. induction msgs as [|m msgs IH]; intros s; [by split; [left|]|].
  destruct m as [name fs| |err|]; cbn [Agent.watchLoop];
    try (by split; [left|]).
  - assert ((Agent.Config (Agent.onEvent FS Load configLocation name fs s).1
             = Agent.Config s.1
             ∨ Load fs configLocation
               = (Agent.Config
                    (Agent.onEvent FS Load configLocation name fs s).1, None))
            ∧ Agent.watcher (Agent.onEvent FS Load configLocation name fs s).1
              = Agent.watcher s.1) as [Hev Hwev].
    { unfold Agent.onEvent.
      destruct (Load fs configLocation) as [loaded [err|]]; cbn;
        (split; [|done]); [by left|by right]. }
    destruct (IH (Agent.onEvent FS Load configLocation name fs s))
      as [[Hsame|(name' & fs' & Hin & Hload)] Hw].
    + split; [|by rewrite Hw]. rewrite Hsame.
      destruct Hev as [Hev|Hev]; [by left|].
      right. exists name, fs. split; [apply list_elem_of_here|done].
    + split; [|by rewrite Hw].
      right. exists name', fs'. split; [by apply list_elem_of_further|done].
  - destruct (IH (Agent.onError err s))
      as [[Hsame|(name' & fs' & Hin & Hload)] Hw].
    + split; [by left|done].
    + split; [|done].
      right. exists name', fs'. split; [by apply list_elem_of_further|done].
Qed.

(** X15. While every reload fails the agent is left exactly as it was:
    after any run of events none of which loads, and of errors of the
    watcher, [Config] returns the snapshot it returned before. *)
Theorem watchLoop_failed_reloads_keep_snapshot configLocation msgs s :
  (∀ name fs, Agent.Event FS name fs ∈ msgs →
              (Load fs configLocation).2 ≠ None) →
  (Agent.watchLoop FS Load configLocation msgs s).1.1 = s.1.
Proof.
  revert s. induction msgs as [|m msgs IH]; intros s Hfail; [done|].
  assert (∀ name fs, Agent.Event FS name fs ∈ msgs →
                     (Load fs configLocation).2 ≠ None) as Hrest.
  { intros name fs Hin. apply (Hfail name fs). by apply list_elem_of_further. }
  destruct m as [name fs| |err|]; cbn [Agent.watchLoop]; try done.
  - rewrite (IH _ Hrest). unfold Agent.onEvent.
    pose proof (Hfail name fs (list_elem_of_here _ _)) as Hl.
    by destruct (Load fs configLocation) as [loaded [err|]].
  - by rewrite (IH _ Hrest).
Qed.

(** X16. Once one of the two channels of the watcher is closed the
    goroutine has returned: what is delivered afterwards changes neither
    the agent nor the log. *)
Theorem watchLoop_stops_when_closed configLocation msgs later s s1 :
  Agent.watchLoop FS Load configLocation msgs s = (s1, false) →
  Agent.watchLoop FS Load configLocation (msgs ++ later) s = (s1, false).
Proof.
  revert s. induction msgs as [|m msgs IH]; intros s Hrun;
    [discriminate Hrun|].
  destruct m; cbn [Agent.watchLoop app] in Hrun |- *;
    first [exact Hrun | by apply IH].
Qed.

End AgentRuns.

(** ** The options *)

Section OptionsProperties.

Context (LogrusLevel : Type)
        (ParseLevel : string → LogrusLevel * option error).

(** X17. [Validate] returns nil exactly when the log level parses, the
    number of workers is at least 1 and a configuration file is named.
    The level is put in force as soon as it parses, also when a later
    check fails; a level that does not parse leaves the level in force
    untouched. *)
Theorem Validate_accepts_iff (o : cmd.options) (current : LogrusLevel) :
  ((cmd.Validate LogrusLevel ParseLevel o current).1 = None
   ↔ (ParseLevel o.(cmd.logLevel)).2 = None
     ∧ (1 ≤ o.(cmd.numWorkers))%Z
     ∧ o.(cmd.configLocation) ≠ "")
  ∧ (cmd.Validate LogrusLevel ParseLevel o current).2
    = match ParseLevel o.(cmd.logLevel) with
      | (_, Some _) => current
      | (level, None) => level
      end.
Proof.
  unfold cmd.Validate.
  destruct (ParseLevel (cmd.logLevel o)) as [level [err|]]; cbn.
  { split; [|done]. split; [done|]. by intros [? _]. }
  destruct (Z.ltb_spec (cmd.numWorkers o) 1) as [Hlt|Hge]; cbn.
  { split; [|done]. split; [done|]. intros (_ & ? & _). lia. }
  destruct (String.eqb_spec (cmd.configLocation o) "") as [Heq|Hne]; cbn.
  { split; [|done]. split; [done|]. by intros (_ & _ & ?). }
  split; [|done]. split; [|done]. intros _. repeat split; [lia|done].
Qed.

End OptionsProperties.

(** ** The delays of the retries *)

Section Backoff.

Import workqueue.

Lemma backoff_below_cap (n : nat) :
  1 ≤ n ≤ maxRetries →
  (baseDelay * 2 ^ (Z.of_nat n - 1) < maxDelay)%Z.
Proof.
  intros [Hlo Hhi]. unfold maxRetries in Hhi. unfold baseDelay, maxDelay.
  assert (2 ^ (Z.of_nat n - 1) ≤ 2 ^ 14)%Z as Hpow
    by (apply Z.pow_le_mono_r; lia).
  change (2 ^ 14)%Z with 16384%Z in Hpow. lia.
Qed.

(** X18. Within the 15 retries the cap of the delay is never reached: the
    delay of the [n]-th requeue is 5ms times 2 to the [n - 1], from 5ms
    for the first to 81.92s for the fifteenth, and the delays grow
    strictly from one requeue to the next. *)
Theorem backoff_doubles_within_retries (n : nat) :
  1 ≤ n ≤ maxRetries →
  backoff n = (5000000 * 2 ^ (Z.of_nat n - 1))%Z
  ∧ (backoff n < maxDelay)%Z
  ∧ (backoff n ≤ 81920000000)%Z
  ∧ (n < maxRetries → (backoff (S n) = 2 * backoff n)%Z).
Proof.
  intros Hn. pose proof (backoff_below_cap n Hn) as Hcap.
  assert (backoff n = (5000000 * 2 ^ (Z.of_nat n - 1))%Z) as Hb.
  { unfold backoff. rewrite Z.min_l; [done|lia]. }
  split; [done|]. split; [rewrite Hb; exact Hcap|]. split.
  - rewrite Hb. destruct Hn as [Hlo Hhi]. unfold maxRetries in Hhi.
    assert (2 ^ (Z.of_nat n - 1) ≤ 2 ^ 14)%Z as Hpow
      by (apply Z.pow_le_mono_r; lia).
    change (2 ^ 14)%Z with 16384%Z in Hpow. lia.
  - intros Hlt. rewrite Hb.
    pose proof (backoff_below_cap (S n) ltac:(lia)) as Hcap'.
    unfold backoff. rewrite Z.min_l by lia. unfold baseDelay.
    replace (Z.of_nat (S n) - 1)%Z with (Z.succ (Z.of_nat n - 1)) by lia.
    rewrite Z.pow_succ_r by lia. lia.
Qed.

End Backoff.

(** ** More on mirrors and events *)

Section MoreMirror.

Context `{quoting : Quote}.

Context (c : SecretMirror).

(** X19. With a non-empty source and a destination that exists with
    different Data, what [mirrorSecret] returns is what the update
    returned: nil exactly when the update succeeded. *)
Theorem mirrorSecret_returns_update_answer source to logger w secret :
  Go.len source.(Data) ≠ 0 →
  c.(lister) to.(locNamespace) to.(locName) = GetOk secret →
  Go.DeepEqual secret.(Data) source.(Data) = false →
  (mirrorSecret c source to logger w).1
  = c.(client).(respond) (actions w)
      (UpdateAction to.(locNamespace)
         (set_Data source.(Data) (DeepCopy secret))).
Proof.
  intros Hlen Hget Hne. unfold mirrorSecret. run_M.
  destruct (Nat.eqb_spec (Go.len (Data source)) 0) as [|_]; [done|].
  by rewrite Hget, Hne.
Qed.

Lemma mirrorAll_empty_source namespace name source logger rules acc w :
  Go.len source.(Data) = 0 →
  actions (mirrorAll c namespace name source logger rules acc w).2
  = actions w.
Proof.
  intros Hlen. revert acc w.
  induction rules as [|r rules IH]; intros acc w; [done|].
  cbn [mirrorAll]. destruct (_ && _); [|apply IH].
  cbv [mbind M_bind].
  assert (actions (mirrorSecret c source (To r) logger w).2 = actions w)
    as Hw1.
  { unfold mirrorSecret. run_M. by rewrite Hlen. }
  destruct (mirrorSecret c source (To r) logger w) as [err w1].
  cbn [snd] in Hw1. by rewrite IH.
Qed.

(** X20. A source without data is never mirrored: however many rules
    select it and whatever their destinations hold, [reconcile] issues no
    write for it. *)
Theorem reconcile_empty_source_writes_nothing key namespace name source w :
  SplitMetaNamespaceKey key = (namespace, name, None) →
  c.(lister) namespace name = GetOk source →
  Go.len source.(Data) = 0 →
  actions (reconcile c key w).2 = actions w.
Proof.
  intros Hkey Hget Hlen. unfold reconcile. run_M.
  rewrite Hkey, Hget. destruct (negb _); [done|]. run_M.
  match goal with |- context [mirrorAll ?a ?b ?d ?e ?f ?g ?h ?i] =>
    pose proof (mirrorAll_empty_source b d e f g h i Hlen) as Hact;
    destruct (mirrorAll a b d e f g h i) as [errs w1] end.
  run_M. cbn [snd actions] in Hact. by destruct (Nat.ltb _ _).
Qed.

Lemma Add_idempotent key q :
  workqueue.Add key (workqueue.Add key q) = workqueue.Add key q.
Proof.
  unfold workqueue.Add.
  destruct (decide (key ∈ workqueue.processing q)) as [Hpr|Hpr]; cbn.
  - rewrite decide_True by done.
    by rewrite (assoc_L (∪)), (idemp_L (∪)).
  - destruct (decide (key ∈ workqueue.pending q)) as [Hpe|Hpe]; cbn.
    + rewrite decide_False by done. by rewrite decide_True by done.
    + rewrite decide_False by done.
      rewrite decide_True; [done|].
      apply elem_of_app. right. apply list_elem_of_here.
Qed.

(** X21. Events for the same secret do not pile up: after an add, a
    further add or update of that secret leaves the queue as it is,
    whether its key is pending or checked out. *)
Theorem repeated_events_enqueue_once (old obj : Secret) w :
  queue (add c obj (add c obj w).2).2 = queue (add c obj w).2
  ∧ queue (update c old obj (add c obj w).2).2 = queue (add c obj w).2.
Proof.
  unfold add, update, enqueue. run_M.
  destruct (DeletionHandlingMetaNamespaceKeyFunc obj) as [key [err|]];
    run_M; [done|].
  by rewrite Add_idempotent.
Qed.

End MoreMirror.

(** ** The properties above on the scenarios *)

Section Witnesses.

#[local] Existing Instance Fixture.asciiQuote.

Import Fixture Sample.

Lemma reconcile_refuses_malformed_key_witness :
  (reconcile (mirror [defaultSecret] okClient) "test-ns/src/extra" world0).1
  = Some (PlainError ("unexpected key format: "
                      +:+ fmt_q "test-ns/src/extra"))
  ∧ actions (reconcile (mirror [defaultSecret] okClient)
               "test-ns/src/extra" world0).2 = [].
Proof.
  apply (reconcile_refuses_malformed_key (mirror [defaultSecret] okClient)
           "test-ns/src/extra" world0).
  vm_compute. lia.
Defined.

Lemma key_of_secret_splits_back_witness :
  (DeletionHandlingMetaNamespaceKeyFunc defaultSecret).2 = None
  ∧ SplitMetaNamespaceKey (DeletionHandlingMetaNamespaceKeyFunc defaultSecret).1
    = ("test-ns", "src", None).
Proof.
  apply (key_of_secret_splits_back defaultSecret); reflexivity.
Defined.

Lemma mirrorSecret_error_provenance_witness :
  (lister (mirror [defaultSecret] failingCreate) "test-ns" "dst"
   = GetErr (PlainError "injected error")
   ∧ IsNotFound (Some (PlainError "injected error")) = false
   ∧ actions (mirrorSecret (mirror [defaultSecret] failingCreate)
                defaultSecret toDst [] world0).2 = actions world0)
  ∨ (∃ a, actions (mirrorSecret (mirror [defaultSecret] failingCreate)
                     defaultSecret toDst [] world0).2 = actions world0 ++ [a]
          ∧ respond (client (mirror [defaultSecret] failingCreate))
              (actions world0) a
            = Some (PlainError "injected error")).
Proof.
  apply (mirrorSecret_error_provenance (mirror [defaultSecret] failingCreate)
           defaultSecret toDst [] world0 (PlainError "injected error")).
  reflexivity.
Defined.

Lemma mirrorSecret_rerun_after_write_is_noop_witness :
  (mirrorSecret (mirror [defaultSecret; convergedDst] failingCreate)
     defaultSecret toDst [] world0).1 = None
  ∧ actions (mirrorSecret (mirror [defaultSecret; convergedDst] failingCreate)
               defaultSecret toDst [] world0).2 = actions world0.
Proof.
  apply (mirrorSecret_rerun_after_write_is_noop
           (mirror [defaultSecret] okClient)
           (mirror [defaultSecret; convergedDst] failingCreate)
           defaultSecret toDst [] [] world0 world0
           (CreateAction "test-ns" convergedDst)).
  - vm_compute. reflexivity.
  - reflexivity.
Defined.

Lemma reconcile_returns_lookup_error_witness :
  (reconcile (NewSecretMirror brokenLister okClient testConfig)
     "test-ns/src" world0).1
  = Some (StatusError StatusReasonForbidden "forbidden")
  ∧ actions (reconcile (NewSecretMirror brokenLister okClient testConfig)
               "test-ns/src" world0).2 = actions world0.
Proof.
  apply (reconcile_returns_lookup_error
           (NewSecretMirror brokenLister okClient testConfig)
           "test-ns/src" "test-ns" "src"
           (StatusError StatusReasonForbidden "forbidden") world0);
    reflexivity.
Defined.

Lemma reconcile_unselected_source_is_noop_witness :
  (reconcile (NewSecretMirror (listerOf [defaultSecret]) okClient fanOut)
     "test-ns/src" world0).1 = None
  ∧ actions (reconcile
               (NewSecretMirror (listerOf [defaultSecret]) okClient fanOut)
               "test-ns/src" world0).2 = actions world0.
Proof.
  apply (reconcile_unselected_source_is_noop
           (NewSecretMirror (listerOf [defaultSecret]) okClient fanOut)
           "test-ns/src" "test-ns" "src" defaultSecret world0);
    reflexivity.
Defined.

Lemma reconcile_creates_for_every_selected_rule_witness :
  actions (reconcile (fanOutMirror failingCreate)
             "source-namespace-1/dev-secret-1" world0).2
  = actions world0
    ++ map (λ r, CreateAction r.(To).(locNamespace)
                   (newDestination r.(To) devSecret.(Data)))
         (filter (selected "source-namespace-1" "dev-secret-1")
            (fanOutMirror failingCreate).(config).(Secrets)).
Proof.
  apply (reconcile_creates_for_every_selected_rule
           (fanOutMirror failingCreate)
           "source-namespace-1/dev-secret-1"
           "source-namespace-1" "dev-secret-1" devSecret world0).
  - reflexivity.
  - reflexivity.
  - reflexivity.
  - vm_compute. discriminate.
  - intros r Hr _.
    apply elem_of_cons in Hr as [->|Hr];
      [eexists; split; reflexivity|].
    apply elem_of_cons in Hr as [->|Hr];
      [eexists; split; reflexivity|].
    apply elem_of_cons in Hr as [->|Hr];
      [eexists; split; reflexivity|].
    by apply elem_of_nil in Hr.
Defined.

Lemma processNextWorkItem_success_forgets_witness :
  (processNextWorkItem (mirror [] okClient) worldQueued).1 = Some true
  ∧ workqueue.NumRequeues "test-ns/src"
      (queue (processNextWorkItem (mirror [] okClient) worldQueued).2) = 0
  ∧ workqueue.pending
      (queue (processNextWorkItem (mirror [] okClient) worldQueued).2) = []
  ∧ workqueue.delayed
      (queue (processNextWorkItem (mirror [] okClient) worldQueued).2) = []
  ∧ workqueue.processing
      (queue (processNextWorkItem (mirror [] okClient) worldQueued).2) = ∅.
Proof.
  apply (processNextWorkItem_success_forgets (mirror [] okClient)
           "test-ns/src" 0 worldQueued).
  - intros w. reflexivity.
  - apply awaiting_Add_New.
Defined.

Lemma processNextWorkItem_releases_key_witness :
  (processNextWorkItem (mirror [defaultSecret] failingCreate) worldQueued).1
  = Some true
  ∧ "test-ns/src"
    ∉ workqueue.processing
        (queue (processNextWorkItem (mirror [defaultSecret] failingCreate)
                  worldQueued).2).
Proof.
  destruct (processNextWorkItem_releases_key
              (mirror [defaultSecret] failingCreate) "test-ns/src"
              {| workqueue.pending := [];
                 workqueue.processing := {[ "test-ns/src" ]} ∪ ∅;
                 workqueue.dirty := ∅; workqueue.requeueCount := ∅;
                 workqueue.delayed := []; workqueue.shuttingDown := false |}
              worldQueued) as (Hres & Hout & _).
  - vm_compute. reflexivity.
  - split; assumption.
Defined.

Lemma add_of_vanished_secret_is_consumed_witness :
  (worker (mirror [deletingSecret] okClient) 3
     (add (mirror [deletingSecret] okClient) deletingSecret world0).2).1 = 1
  ∧ actions (worker (mirror [deletingSecret] okClient) 3
               (add (mirror [deletingSecret] okClient) deletingSecret
                  world0).2).2 = actions world0
  ∧ idle (DeletionHandlingMetaNamespaceKeyFunc deletingSecret).1
      (queue (worker (mirror [deletingSecret] okClient) 3
                (add (mirror [deletingSecret] okClient) deletingSecret
                   world0).2).2).
Proof.
  apply (add_of_vanished_secret_is_consumed
           (mirror [deletingSecret] okClient) deletingSecret world0 3).
  - reflexivity.
  - reflexivity.
  - reflexivity.
  - right. exists deletingSecret. split; reflexivity.
  - lia.
Defined.

Lemma watchLoop_failed_reloads_keep_snapshot_witness :
  (Agent.watchLoop FS Load "/etc/mirror/mapping.yaml"
     [Agent.Event FS "/etc/mirror/..data" None;
      Agent.WatchError FS (PlainError "overflow");
      Agent.Event FS "/etc/mirror/..data_tmp" None] started).1.1
  = started.1.
Proof.
  apply (watchLoop_failed_reloads_keep_snapshot FS Load
           "/etc/mirror/mapping.yaml"
           [Agent.Event FS "/etc/mirror/..data" None;
            Agent.WatchError FS (PlainError "overflow");
            Agent.Event FS "/etc/mirror/..data_tmp" None] started).
  intros name fs Hin.
  apply elem_of_cons in Hin as [[= _ ->]|Hin]; [discriminate|].
  apply elem_of_cons in Hin as [[=]|Hin].
  apply elem_of_cons in Hin as [[= _ ->]|Hin]; [discriminate|].
  by apply elem_of_nil in Hin.
Defined.

Lemma watchLoop_stops_when_closed_witness :
  Agent.watchLoop FS Load "/etc/mirror/mapping.yaml"
    ([Agent.EventsClosed FS]
     ++ [Agent.Event FS "/etc/mirror/..data" (Some newConfig)]) started
  = (started, false).
Proof.
  apply (watchLoop_stops_when_closed FS Load "/etc/mirror/mapping.yaml"
           [Agent.EventsClosed FS]
           [Agent.Event FS "/etc/mirror/..data" (Some newConfig)]
           started started).
  reflexivity.
Defined.

Lemma backoff_doubles_within_retries_witness :
  workqueue.backoff 14 = (5000000 * 2 ^ (Z.of_nat 14 - 1))%Z
  ∧ (workqueue.backoff 14 < workqueue.maxDelay)%Z
  ∧ (workqueue.backoff 14 ≤ 81920000000)%Z
  ∧ (14 < maxRetries →
     (workqueue.backoff 15 = 2 * workqueue.backoff 14)%Z).
Proof.
  apply (backoff_doubles_within_retries 14). unfold maxRetries. lia.
Defined.
Lemma mirrorSecret_returns_update_answer_witness :
  (mirrorSecret (mirror [defaultSecret; staleDst] okClient)
     defaultSecret toDst [] world0).1
  = respond (client (mirror [defaultSecret; staleDst] okClient))
      (actions world0)
      (UpdateAction "test-ns" (set_Data testData (DeepCopy staleDst))).
Proof.
  apply (mirrorSecret_returns_update_answer
           (mirror [defaultSecret; staleDst] okClient)
           defaultSecret toDst [] world0 staleDst).
  - vm_compute. discriminate.
  - reflexivity.
  - vm_compute. reflexivity.
Defined.

Lemma reconcile_empty_source_writes_nothing_witness :
  actions (reconcile (mirror [emptySecret; staleDst] okClient)
             "test-ns/src" world0).2 = actions world0.
Proof.
  apply (reconcile_empty_source_writes_nothing
           (mirror [emptySecret; staleDst] okClient)
           "test-ns/src" "test-ns" "src" emptySecret world0);
    reflexivity.
Defined.

End Witnesses.
